(** * clinical-filter: genotype model and inheritance routing

    A shallow embedding of the variant classes of
    [clinicalfilter/variant/snv.py] and [clinicalfilter/variant/cnv.py],
    together with the parts of the inheritance engine that the unit tests
    under [src/test/python/clinicalfilter] exercise.

    Python objects are records, methods that mutate [self] are state
    transformers that may raise, dictionaries are [gmap]s and Python sets
    are [gset]s. *)

From Stdlib Require Import ZArith String Ascii List Bool Lia.
From stdpp Require Import base decidable option list gmap sets strings pretty.

Open Scope Z_scope.
Open Scope string_scope.

(** ** Exceptions and methods *)

(** The Python exceptions that the modelled code can raise. [ValueError]
    carries the arguments it was constructed with. *)
Inductive exn : Type :=
  | ValueError (args : list string)
  | AssertionError
  | KeyError (key : string).

Inductive result (A : Type) : Type :=
  | Ok (a : A)
  | Raise (e : exn).
Arguments Ok {A} a.
Arguments Raise {A} e.

(** A method on an object of class [S]: it runs on the current state of
    [self] and gives back a value or an exception together with the state
    of [self] at that point. Assignments made before a [raise] stay. *)
Definition method (S A : Type) : Type := S → result A * S.

Definition method_ret {S A : Type} (a : A) : method S A := λ s, (Ok a, s).

Definition method_bind {S A B : Type} (m : method S A) (f : A → method S B)
  : method S B :=
  λ s, match m s with
       | (Ok a, s') => f a s'
       | (Raise e, s') => (Raise e, s')
       end.

Declare Scope method_scope.
Delimit Scope method_scope with method.
Bind Scope method_scope with method.
Notation "x ← y ; z" := (method_bind y (λ x, z))
  (at level 20, y at level 100, z at level 200, only parsing) : method_scope.
Notation "x ;; z" := (method_bind x (λ _, z))
  (at level 100, z at level 200, only parsing, right associativity) : method_scope.
Open Scope method_scope.

Definition raise {S A : Type} (e : exn) : method S A := λ s, (Raise e, s).
Definition gets {S A : Type} (f : S → A) : method S A := λ s, (Ok (f s), s).
Definition modify {S : Type} (f : S → S) : method S unit := λ s, (Ok tt, f s).
Definition lift {S A : Type} (r : result A) : method S A := λ s, (r, s).
Definition pass {S : Type} : method S unit := method_ret tt.

(** [d[key]] on a dictionary. *)
Definition getitem {S V : Type} (d : gmap string V) (key : string) : method S V :=
  match d !! key with
  | Some v => method_ret v
  | None => raise (KeyError key)
  end.

(** ** Strings *)

(** [sep in s] for a one-character [sep]. *)
Fixpoint has_char (sep : ascii) (s : string) : bool :=
  match s with
  | EmptyString => false
  | String c s' => if Ascii.eqb c sep then true else has_char sep s'
  end.

(** [s.split(sep)] for a one-character [sep]: one more part than there are
    occurrences of [sep]. *)
Fixpoint split (sep : ascii) (s : string) : list string :=
  match s with
  | EmptyString => [EmptyString]
  | String c s' =>
      if Ascii.eqb c sep then EmptyString :: split sep s'
      else match split sep s' with
           | p :: ps => String c p :: ps
           | [] => [String c EmptyString]
           end
  end.

(** [sep.join(parts)] *)
Fixpoint join (sep : string) (parts : list string) : string :=
  match parts with
  | [] => EmptyString
  | [p] => p
  | p :: ps => p ++ sep ++ join sep ps
  end.

(** [a, b = parts]: unpacking raises [ValueError] unless there are exactly
    two parts. *)
Definition unpack2 (parts : list string) : result (string * string) :=
  match parts with
  | [a; b] => Ok (a, b)
  | [] => Raise (ValueError ["not enough values to unpack (expected 2, got 0)"])
  | [_] => Raise (ValueError ["not enough values to unpack (expected 2, got 1)"])
  | _ => Raise (ValueError ["too many values to unpack (expected 2)"])
  end.

(** ** The Variant base class

    [clinicalfilter/variant/variant.py] and [info.py] are not among the
    sources; what [SNV] and [CNV] call from them is an interface. *)
Class VariantBase : Type := {
  (** [VariantInfo.is_number(value)] *)
  is_number : string → bool;
  (** [Variant.is_male()] and [Variant.is_female()], decided by the gender
      code stored on the variant *)
  is_male_code : string → bool;
  is_female_code : string → bool;
  (** what [Variant.set_inheritance_type()] stores, from the chromosome,
      the position and the gender code of the variant *)
  resolve_inheritance_type : string → Z → string → string;
  (** the builtin [int(s)] on a string; [None] stands for its ValueError *)
  py_int : string → option Z
}.

(** ** Point variants: class SNV *)

Module SNV.

Record snv : Type := mk_snv {
  ref_allele : string;
  alt_allele : string;
  gender : string;
  inheritance_type : string;
  format : option (gmap string string);
  genotype : Z;
  alleles : gset string;
  hom_ref : gset string;
  het : gset string;
  hom_alt : gset string
}.

Definition with_genotype (g : Z) (v : snv) : snv :=
  mk_snv (ref_allele v) (alt_allele v) (gender v) (inheritance_type v)
         (format v) g (alleles v) (hom_ref v) (het v) (hom_alt v).

Definition with_alleles (a : gset string) (v : snv) : snv :=
  mk_snv (ref_allele v) (alt_allele v) (gender v) (inheritance_type v)
         (format v) (genotype v) a (hom_ref v) (het v) (hom_alt v).

Definition with_hom_ref (a : gset string) (v : snv) : snv :=
  mk_snv (ref_allele v) (alt_allele v) (gender v) (inheritance_type v)
         (format v) (genotype v) (alleles v) a (het v) (hom_alt v).

Definition with_het (a : gset string) (v : snv) : snv :=
  mk_snv (ref_allele v) (alt_allele v) (gender v) (inheritance_type v)
         (format v) (genotype v) (alleles v) (hom_ref v) a (hom_alt v).

Definition with_hom_alt (a : gset string) (v : snv) : snv :=
  mk_snv (ref_allele v) (alt_allele v) (gender v) (inheritance_type v)
         (format v) (genotype v) (alleles v) (hom_ref v) (het v) a.

(** [set([a, b])] *)
Definition set2 (a b : string) : gset string := {[a]} ∪ {[b]}.

Definition is_male (v : snv) `{VariantBase} : bool := is_male_code (gender v).
Definition is_female (v : snv) `{VariantBase} : bool := is_female_code (gender v).

Section methods.
Context `{VB : VariantBase}.

Definition convert_genotype (genotype : string) : result Z :=
  if bool_decide (String.length genotype = 1%nat) then
    Raise (ValueError ["genotype is only a single character"])
  else
    let alleles :=
      match unpack2 (split "/" genotype) with
      | Raise (ValueError _) => unpack2 (split "|" genotype)
      | r => r
      end in
    match alleles with
    | Raise e => Raise e
    | Ok (allele_1, allele_2) =>
        if negb (is_number allele_1) then Raise AssertionError
        else if negb (is_number allele_2) then Raise AssertionError
        else if bool_decide (allele_1 ≠ allele_2) then Ok 1
        else if bool_decide (allele_1 = "0") && bool_decide (allele_2 = "0")
        then Ok 0
        else Ok 2
    end.

Definition set_reference_genotypes : method snv unit :=
  inh ← gets inheritance_type;
  if bool_decide (inh = "autosomal") || bool_decide (inh = "XChrFemale") then
    modify (λ v, with_hom_ref (set2 (ref_allele v) (ref_allele v)) v);;
    modify (λ v, with_het (set2 (ref_allele v) (alt_allele v)) v);;
    modify (λ v, with_hom_alt (set2 (alt_allele v) (alt_allele v)) v)
  else if bool_decide (inh = "XChrMale") then
    modify (λ v, with_hom_alt {[alt_allele v]} v);;
    modify (λ v, with_het ∅ v);;
    modify (λ v, with_hom_ref {[ref_allele v]} v)
  else raise (ValueError ["unknown inheritance type:"; inh]).

Definition convert_autosomal_genotype_code_to_alleles : method snv unit :=
  genotype ← gets (λ v, pretty (genotype v));
  if bool_decide (genotype = "0") then
    modify (λ v, with_alleles (set2 (ref_allele v) (ref_allele v)) v)
  else if bool_decide (genotype = "1") then
    modify (λ v, with_alleles (set2 (ref_allele v) (alt_allele v)) v)
  else if bool_decide (genotype = "2") then
    modify (λ v, with_alleles (set2 (alt_allele v) (alt_allele v)) v)
  else raise (ValueError ["unknown genotype '" ++ genotype]).

Definition convert_allosomal_genotype_code_to_alleles : method snv unit :=
  genotype ← gets (λ v, pretty (genotype v));
  male ← gets (λ v, is_male v);
  female ← gets (λ v, is_female v);
  if male then
    if bool_decide (genotype = "0") then
      modify (λ v, with_alleles {[ref_allele v]} v)
    else if bool_decide (genotype = "2") then
      modify (λ v, with_alleles {[alt_allele v]} v)
    else if bool_decide (genotype = "1") then
      raise (ValueError ["heterozygous X-chromomosome male"])
    else raise (ValueError ["unknown genotype '" ++ genotype])
  else if female then convert_autosomal_genotype_code_to_alleles
  else
    g ← gets gender;
    raise (ValueError ["Unknown gender: " ++ g]).

Definition convert_genotype_code_to_alleles : method snv unit :=
  inh ← gets inheritance_type;
  if bool_decide (inh = "autosomal") then
    convert_autosomal_genotype_code_to_alleles
  else if bool_decide (inh = "XChrMale") || bool_decide (inh = "XChrFemale") then
    convert_allosomal_genotype_code_to_alleles
  else pass.

Definition set_genotype : method snv unit :=
  fmt ← gets format;
  match fmt with
  | Some fields =>
      gt ← getitem fields "GT";
      g ← lift (convert_genotype gt);
      modify (with_genotype g)
  | None => raise (ValueError ["cannot find a genotype"])
  end;;
  set_reference_genotypes;;
  convert_genotype_code_to_alleles.

Definition set_default_genotype : method snv unit :=
  modify (with_genotype 0);;
  set_reference_genotypes;;
  convert_genotype_code_to_alleles.

End methods.

Definition is_het (v : snv) : bool := bool_decide (alleles v = het v).
Definition is_hom_alt (v : snv) : bool := bool_decide (alleles v = hom_alt v).
Definition is_hom_ref (v : snv) : bool := bool_decide (alleles v = hom_ref v).
Definition is_not_ref (v : snv) : bool := bool_decide (alleles v ≠ hom_ref v).
Definition is_not_alt (v : snv) : bool := bool_decide (alleles v ≠ hom_alt v).

End SNV.

(** ** Structural variants: class CNV *)

Module CNV.

(** One entry of the known-gene panel, [known_genes[gene]]: the keys
    ["start"] and ["end"] of the dictionary, either of which may be
    missing. *)
Record gene_entry : Type := mk_gene_entry {
  gene_start : option Z;
  gene_end : option Z
}.

Record cnv : Type := mk_cnv {
  chrom : string;
  position : Z;
  gender : string;
  inheritance_type : string;
  alt_allele : string;
  info : gmap string string;
  gene : option string;
  known_genes : option (gmap string gene_entry);
  genotype : string;
  debug_chrom : option string;
  debug_pos : option Z
}.

Definition with_position (p : Z) (v : cnv) : cnv :=
  mk_cnv (chrom v) p (gender v) (inheritance_type v) (alt_allele v) (info v)
         (gene v) (known_genes v) (genotype v) (debug_chrom v) (debug_pos v).

Definition with_inheritance_type (t : string) (v : cnv) : cnv :=
  mk_cnv (chrom v) (position v) (gender v) t (alt_allele v) (info v)
         (gene v) (known_genes v) (genotype v) (debug_chrom v) (debug_pos v).

Definition with_genotype (g : string) (v : cnv) : cnv :=
  mk_cnv (chrom v) (position v) (gender v) (inheritance_type v) (alt_allele v)
         (info v) (gene v) (known_genes v) g (debug_chrom v) (debug_pos v).

Definition with_gene (g : option string) (v : cnv) : cnv :=
  mk_cnv (chrom v) (position v) (gender v) (inheritance_type v) (alt_allele v)
         (info v) g (known_genes v) (genotype v) (debug_chrom v) (debug_pos v).

(** The collaborators of [CNV] that are not among the sources:
    [Variant.get_range()] and the quality filters behind
    [ACGH_CNV(self).filter_cnv] and [BreakdancerCNV(self).filter_cnv], each
    taken as a function of the variant and of the tracking flag. Building
    the filter objects, [ExomeCNV(self)] included, is taken to neither raise
    nor change the variant. *)
Class CNVBase : Type := {
  get_range : cnv → Z * Z;
  acgh_filter_cnv : cnv → bool → bool;
  breakdancer_filter_cnv : cnv → bool → bool
}.

Definition ref_genotypes : gset string := {["REF"]}.
Definition alt_genotypes : gset string := {["DEL"]} ∪ {["DUP"]}.

Definition is_cnv (v : cnv) : bool := true.

(** Modelled from the spec: [Variant.get_chrom], [Variant.get_position] and
    [Variant.get_inheritance_type] belong to the absent base class; they read
    the attribute of the same name (§3, the locus and the derived context of
    a Variant). *)
Definition get_chrom : method cnv string := gets chrom.
Definition get_position : method cnv Z := gets position.
Definition get_inheritance_type : method cnv string := gets inheritance_type.

Section methods.
Context `{VB : VariantBase} `{CB : CNVBase}.

(** Modelled from the spec: [Variant.set_inheritance_type] belongs to the
    absent base class; it stores the context derived from the chromosome,
    the current position and the sex of the variant (§3,
    InheritanceContext). *)
Definition set_inheritance_type : method cnv unit :=
  modify (λ v, with_inheritance_type
                 (resolve_inheritance_type (chrom v) (position v) (gender v)) v).

(** [int(s)] *)
Definition int (s : string) : method cnv Z :=
  match py_int s with
  | Some z => method_ret z
  | None => raise (ValueError ["invalid literal for int() with base 10: '"
                               ++ s ++ "'"])
  end.

Definition set_genotype : method cnv unit :=
  chrom ← get_chrom;
  (if bool_decide (chrom ∈ ["chrX"; "ChrX"; "X"; "chrY"; "ChrY"; "Y"]) then
     cnv_start ← get_position;
     cnv_start_inh ← get_inheritance_type;
     fields ← gets info;
     cnv_end ← getitem fields "END";
     end_position ← int cnv_end;
     modify (with_position end_position);;
     set_inheritance_type;;
     cnv_end_inh ← get_inheritance_type;
     modify (with_position cnv_start);;
     if bool_decide (cnv_start_inh ≠ cnv_end_inh) then
       if bool_decide (cnv_start_inh ≠ "autosomal") then set_inheritance_type
       else pass
     else pass
   else pass);;
  inh ← get_inheritance_type;
  (if bool_decide (inh = "YChrFemale") then
     raise (ValueError ["cannot have CNV on female Y chromosome"])
   else pass);;
  alt ← gets alt_allele;
  if bool_decide (alt = "<DUP>") then modify (with_genotype "DUP")
  else if bool_decide (alt = "<DEL>") then modify (with_genotype "DEL")
  else raise (ValueError ["unknown CNV allele code"]).

Definition set_default_genotype : method cnv unit :=
  modify (with_genotype "REF").

Definition get_genes : method cnv (list string) :=
  g ← gets gene;
  match g with
  | None => method_ret []
  | Some names => if has_char "," names then method_ret (split "," names)
                  else method_ret [names]
  end.

(** The loop of [fix_gene_IDs] over the reported genes; [genes] is the list
    built so far. *)
Fixpoint fix_gene_IDs_loop (known : option (gmap string gene_entry))
    (start end_ : Z) (reported genes : list string) : result (list string) :=
  match reported with
  | [] => Ok genes
  | gene :: rest =>
      match known with
      | None => fix_gene_IDs_loop known start end_ rest (genes ++ [gene])
      | Some panel =>
          match panel !! gene with
          | None => fix_gene_IDs_loop known start end_ rest (genes ++ [gene])
          | Some entry =>
              match gene_start entry with
              | None => Raise (KeyError "start")
              | Some panel_start =>
                  match gene_end entry with
                  | None => Raise (KeyError "end")
                  | Some panel_end =>
                      if (start <=? panel_end)%Z && (end_ >=? panel_start)%Z then
                        fix_gene_IDs_loop known start end_ rest (genes ++ [gene])
                      else fix_gene_IDs_loop known start end_ rest genes
                  end
              end
          end
      end
  end.

Definition fix_gene_IDs : method cnv unit :=
  range ← gets get_range;
  reported ← get_genes;
  known ← gets known_genes;
  genes ← lift (fix_gene_IDs_loop known range.1 range.2 reported []);
  if bool_decide (0 < length genes)%nat then
    modify (with_gene (Some (join "," genes)))
  else pass.

(** [key in self.info] *)
Definition has_key (key : string) (d : gmap string string) : bool :=
  bool_decide (is_Some (d !! key)).

Definition passes_filters : method cnv bool :=
  λ self,
    match set_genotype self with
    | (Raise (ValueError _), self') => (Ok false, self')
    | (Raise e, self') => (Raise e, self')
    | (Ok _, self') =>
        (chrom ← get_chrom;
         pos ← get_position;
         debug_chrom ← gets debug_chrom;
         debug_pos ← gets debug_pos;
         let track_variant :=
           bool_decide (Some chrom = debug_chrom)
           && bool_decide (Some pos = debug_pos) in
         fields ← gets info;
         if has_key "CONVEX" fields && negb (has_key "CNSOLIDATE" fields) then
           method_ret false
         else if has_key "CNSOLIDATE" fields then
           gets (λ v, acgh_filter_cnv v track_variant)
         else if has_key "BREAKDANCER" fields then
           gets (λ v, breakdancer_filter_cnv v track_variant)
         else method_ret false) self'
    end.

End methods.

Definition is_het (v : cnv) : bool := bool_decide (genotype v ∈ alt_genotypes).
Definition is_hom_alt (v : cnv) : bool := bool_decide (genotype v ∈ alt_genotypes).
Definition is_hom_ref (v : cnv) : bool := bool_decide (genotype v ∈ ref_genotypes).
Definition is_not_ref (v : cnv) : bool := bool_decide (genotype v ∈ alt_genotypes).
Definition is_not_alt (v : cnv) : bool := bool_decide (genotype v ∈ ref_genotypes).

End CNV.

(** ** The inheritance engines

    [clinicalfilter/inheritance.py] is not among the sources; its unit
    tests are. Each operation below is written from its description in the
    specification and checked against the assertions of its unit test,
    which are embedded next to it as a predicate on implementations. *)

Module Autosomal.

Section lists.
Context {V : Type}.

(** An entry [[variant, check, inheritance]] of either list. *)
Definition entry : Type := V * string * string.

Record engine : Type := mk_engine {
  candidates : list entry;
  compound_hets : list entry
}.

Definition append_candidate (e : entry) (s : engine) : engine :=
  mk_engine (candidates s ++ [e]) (compound_hets s).

Definition append_compound_het (e : entry) (s : engine) : engine :=
  mk_engine (candidates s) (compound_hets s ++ [e]).

(** The routing of §4.3 word for word: SingleVariant and Hemizygous go to
    the candidates, CompoundHetPartner to the compound heterozygotes, any
    other tag is dropped. *)
Definition route_as_specified (variant : V) (check inheritance : string)
  : method engine unit :=
  if bool_decide (check = "single_variant") || bool_decide (check = "hemizygous")
  then modify (append_candidate (variant, check, inheritance))
  else if bool_decide (check = "compound_het")
  then modify (append_compound_het (variant, check, inheritance))
  else pass.

(** Modelled from the spec: the body of
    [Autosomal.add_variant_to_appropriate_list] is absent
    (clinicalfilter/inheritance.py). It is the [route] of §4.3, with the
    ["hemizygous"] tag placed where [test_add_variant_to_appropriate_list]
    (test_inheritance.py, lines 154-160) asserts it lands: in
    [compound_hets], with [candidates] left empty. *)
Definition add_variant_to_appropriate_list (variant : V)
    (check inheritance : string) : method engine unit :=
  if bool_decide (check = "compound_het") || bool_decide (check = "hemizygous")
  then modify (append_compound_het (variant, check, inheritance))
  else if bool_decide (check = "single_variant")
  then modify (append_candidate (variant, check, inheritance))
  else pass.

(** [test_add_variant_to_appropriate_list] (test_inheritance.py, lines
    139-176): the four blocks reset both lists, route one entry and compare
    both lists. *)
Definition test_add_variant_to_appropriate_list
    (impl : V → string → string → method engine unit) (var : V) : Prop :=
  let inheritance := "Monoallelic" in
  let fresh := mk_engine [] [] in
  let run check := (impl var check inheritance fresh).2 in
  (candidates (run "compound_het") = []
   ∧ compound_hets (run "compound_het") = [(var, "compound_het", inheritance)])
  ∧ (candidates (run "hemizygous") = []
     ∧ compound_hets (run "hemizygous") = [(var, "hemizygous", inheritance)])
  ∧ (candidates (run "single_variant") = [(var, "single_variant", inheritance)]
     ∧ compound_hets (run "single_variant") = [])
  ∧ (candidates (run "nothing") = [] ∧ compound_hets (run "nothing") = []).

End lists.
Arguments entry V : clear implicits.
Arguments engine V : clear implicits.

End Autosomal.

Module Allosomal.

Inductive zygosity : Type := HomRef | Het | HomAlt.

(** What [check_homozygous] reads for a male proband: the zygosity of the
    parents' calls, the affected flags, and the [log_string] it writes. *)
Record engine : Type := mk_engine {
  mom : zygosity;
  dad : zygosity;
  mother_affected : bool;
  father_affected : bool;
  log_string : string
}.

Definition with_log_string (msg : string) (s : engine) : engine :=
  mk_engine (mom s) (dad s) (mother_affected s) (father_affected s) msg.

Definition is_het (z : zygosity) : bool :=
  match z with Het => true | _ => false end.
Definition is_hom_alt (z : zygosity) : bool :=
  match z with HomAlt => true | _ => false end.
Definition is_hom_ref (z : zygosity) : bool :=
  match z with HomRef => true | _ => false end.

(** Modelled from the spec: the body of [Allosomal.check_homozygous] is
    absent (clinicalfilter/inheritance.py). These are the rows
    "HomAlt, male" of the decision table of §4.4 for a trio whose parents
    both have a call, and the rule that a mode other than X-linked dominant
    or Hemizygous is a ValueError. Two cells follow
    [test_check_homozygous_male] (test_allosomal_inheritance.py, lines
    250-285) where the table is silent or says otherwise: a homozygous
    reference mother gives "male X chrom de novo" (lines 257-260), and a
    heterozygous mother passes only while she is unaffected (lines 262-270).
    The father's call is not consulted. *)
Definition check_homozygous_male (inheritance : string) : method engine string :=
  if negb (bool_decide (inheritance ∈ ["X-linked dominant"; "Hemizygous"]))
  then raise (ValueError [])
  else
    mom ← gets mom;
    mother_affected ← gets mother_affected;
    if is_hom_ref mom then
      modify (with_log_string "male X chrom de novo");;
      method_ret "single_variant"
    else if (is_het mom && negb mother_affected)
            || (is_hom_alt mom && mother_affected) then
      modify (with_log_string
        "male X chrom inherited from het mother or hom affected mother");;
      method_ret "single_variant"
    else
      modify (with_log_string "variant not compatible with being causal");;
      method_ret "nothing".

(** The trio codes of the tests' [set_trio_genos]: "0", "1", "2" for the
    mother and the father of a proband that is "2". *)
Definition trio (mother father : zygosity) (mother_affected father_affected : bool)
  : engine :=
  mk_engine mother father mother_affected father_affected "".

(** [test_check_homozygous_male] (test_allosomal_inheritance.py, lines
    250-285). [setUp] builds both parents unaffected; the test then sets
    [mother_affected] to True before its third block and to False before its
    fifth. *)
Definition test_check_homozygous_male
    (impl : string → method engine string) : Prop :=
  let run mother aff :=
    let r := impl "X-linked dominant" (trio mother HomRef aff false) in
    (r.1, log_string r.2) in
  run HomRef false = (Ok "single_variant", "male X chrom de novo")
  ∧ run Het false =
      (Ok "single_variant",
       "male X chrom inherited from het mother or hom affected mother")
  ∧ run Het true = (Ok "nothing", "variant not compatible with being causal")
  ∧ run HomAlt true =
      (Ok "single_variant",
       "male X chrom inherited from het mother or hom affected mother")
  ∧ run HomAlt false = (Ok "nothing", "variant not compatible with being causal")
  ∧ (∃ args, (impl "X-linked over-dominance" (trio HomAlt HomRef false false)).1
             = Raise (ValueError args)).

End Allosomal.

Module CNVInheritance.

Definition strictly_contained (cnv_start cnv_end gene_start gene_end : Z) : bool :=
  (gene_start <? cnv_start)%Z && (cnv_end <? gene_end)%Z.

Definition protrudes_5' (cnv_start gene_start : Z) : bool :=
  (cnv_start <? gene_start)%Z.

Definition protrudes_3' (cnv_end gene_end : Z) : bool :=
  (gene_end <? cnv_end)%Z.

(** Modelled from the spec: the body of
    [CNVInheritance.passes_intragenic_dup] is absent
    (clinicalfilter/inheritance.py). §4.5: only a DUP under Monoallelic or
    X-linked dominant is considered, and it is accepted when its span is
    strictly contained within the gene or protrudes past only one gene
    boundary. [genotype] is the child's genotype, [cnv_range] the child's
    range and [gene_range] the panel's start and end of the gene. *)
Definition passes_intragenic_dup (genotype : string) (cnv_range gene_range : Z * Z)
    (inh : string) : bool :=
  let '(cnv_start, cnv_end) := cnv_range in
  let '(gene_start, gene_end) := gene_range in
  bool_decide (genotype = "DUP")
  && bool_decide (inh ∈ ["Monoallelic"; "X-linked dominant"])
  && (strictly_contained cnv_start cnv_end gene_start gene_end
      || xorb (protrudes_5' cnv_start gene_start) (protrudes_3' cnv_end gene_end)).

(** [test_check_passes_intragenic_dup] (test_cnv_inheritance.py, lines
    318-366) against the panel gene [5000, 6000]: child genotype, child
    range, mode, expected answer. The first block writes the start 5200 on
    the trio record while the child keeps the start 15000000 it was created
    with; both readings of that block are listed. *)
Definition test_check_passes_intragenic_dup
  : list (string * (Z * Z) * string * bool) :=
  [ ("DUP", (5200, 5800), "Monoallelic", true);
    ("DUP", (15000000, 5800), "Monoallelic", true);
    ("DUP", (4800, 6200), "Monoallelic", false);
    ("DUP", (5000, 6000), "Monoallelic", false);
    ("DUP", (5200, 6200), "Monoallelic", true);
    ("DUP", (4800, 5800), "Monoallelic", true);
    ("DUP", (4800, 5800), "X-linked dominant", true);
    ("DUP", (4800, 5800), "Biallelic", false);
    ("DEL", (4800, 5800), "Monoallelic", false) ].

Definition passes_intragenic_dup_tests : bool :=
  forallb (λ '(genotype, cnv_range, inh, expected),
             Bool.eqb (passes_intragenic_dup genotype cnv_range (5000, 6000) inh)
                      expected)
          test_check_passes_intragenic_dup.

(** The number of positions two closed intervals share. *)
Definition overlap (start_a end_a start_b end_b : Z) : Z :=
  Z.min end_a end_b - Z.max start_a start_b + 1.

(** [part / whole >= 0.01] for a positive [whole], without the division. *)
Definition at_least_one_percent (part whole : Z) : bool :=
  (whole <=? 100 * part)%Z.

(** Modelled from the spec: the body of [CNVInheritance.has_enough_overlap]
    is absent (clinicalfilter/inheritance.py). §4.5: the overlap, taken as a
    share of the CNV and as a share of the region, must reach 1% from both
    perspectives. Lengths count both end positions, as the last block of
    [test_has_enough_overlap] needs for a CNV of a single position; the
    ratios are compared exactly, as integers. *)
Definition has_enough_overlap (start_a end_a start_b end_b : Z) : bool :=
  let distance := overlap start_a end_a start_b end_b in
  at_least_one_percent distance (end_a - start_a + 1)
  && at_least_one_percent distance (end_b - start_b + 1).

(** The other reading of the sentence of §4.5, the overlap as a share of
    the shorter interval only. *)
Definition has_enough_overlap_of_shorter (start_a end_a start_b end_b : Z) : bool :=
  at_least_one_percent (overlap start_a end_a start_b end_b)
                       (Z.min (end_a - start_a + 1) (end_b - start_b + 1)).

(** [test_has_enough_overlap] (test_cnv_inheritance.py, lines 398-432). *)
Definition test_has_enough_overlap : list (Z * Z * Z * Z * bool) :=
  [ (1000, 2000, 1000, 2000, true);
    (1000, 1010, 1000, 2000, true);
    (1000, 1009, 1000, 2000, false);
    (1000, 2000, 1000, 1010, true);
    (1000, 2000, 1000, 1009, false);
    (1000, 1000, 1000, 1050, true) ].

Definition run_test_has_enough_overlap (impl : Z → Z → Z → Z → bool) : bool :=
  forallb (λ '(start_a, end_a, start_b, end_b, expected),
             Bool.eqb (impl start_a end_a start_b end_b) expected)
          test_has_enough_overlap.

End CNVInheritance.

(** ** A concrete base class, for running the model

    One implementation of the interfaces above: alleles are numbers when
    they are non-empty digit strings, the gender codes are those of a
    pedigree file, the X and Y contexts are autosomal inside the first
    pseudoautosomal region, and [int] reads unsigned decimal numbers. *)

Module Sample.

Definition is_digit (c : ascii) : bool :=
  let n := nat_of_ascii c in (48 <=? n)%nat && (n <=? 57)%nat.

Fixpoint all_digits (s : string) : bool :=
  match s with
  | EmptyString => true
  | String c s' => is_digit c && all_digits s'
  end.

Definition digits_only (s : string) : bool :=
  negb (bool_decide (s = "")) && all_digits s.

Fixpoint decimal (acc : Z) (s : string) : Z :=
  match s with
  | EmptyString => acc
  | String c s' => decimal (10 * acc + Z.of_nat (nat_of_ascii c - 48)) s'
  end.

Definition parse_int (s : string) : option Z :=
  if digits_only s then Some (decimal 0 s) else None.

Definition male_code (g : string) : bool :=
  bool_decide (g ∈ ["1"; "m"; "M"; "male"]).
Definition female_code (g : string) : bool :=
  bool_decide (g ∈ ["2"; "f"; "F"; "female"]).

Definition context_at (chrom : string) (position : Z) (gender : string) : string :=
  if bool_decide (chrom ∈ ["chrX"; "ChrX"; "X"]) then
    if (60001 <? position)%Z && (position <? 2699520)%Z then "autosomal"
    else if male_code gender then "XChrMale" else "XChrFemale"
  else if bool_decide (chrom ∈ ["chrY"; "ChrY"; "Y"]) then
    if (10001 <? position)%Z && (position <? 2649520)%Z then "autosomal"
    else if male_code gender then "YChrMale" else "YChrFemale"
  else "autosomal".

Definition base : VariantBase := {|
  is_number := digits_only;
  is_male_code := male_code;
  is_female_code := female_code;
  resolve_inheritance_type := context_at;
  py_int := parse_int
|}.

Definition end_of (v : CNV.cnv) : Z :=
  match CNV.info v !! "END" with
  | Some e => default (CNV.position v) (parse_int e)
  | None => CNV.position v
  end.

Definition cnv_base : CNV.CNVBase := {|
  CNV.get_range := λ v, (CNV.position v, end_of v);
  CNV.acgh_filter_cnv := λ _ _, true;
  CNV.breakdancer_filter_cnv := λ _ _, true
|}.

(** A point variant on the X chromosome of a male, as the tests create it,
    with the genotype field [gt]. *)
Definition male_x_snv (gt : string) : SNV.snv :=
  SNV.mk_snv "A" "G" "M" "XChrMale" (Some {["GT" := gt; "DP" := "50"]})
             0 ∅ ∅ ∅ ∅.

(** A duplication on the X chromosome of a male that starts inside the
    pseudoautosomal region and ends outside of it. *)
Definition par_crossing_dup : CNV.cnv :=
  CNV.mk_cnv "X" 2000000 "M" "autosomal" "<DUP>"
             {["END" := "3000000"; "HGNC" := "TEST"]}
             (Some "TEST") None "" None None.

(** A duplication that starts outside of the pseudoautosomal region of the X
    chromosome of a male. *)
Definition x_dup : CNV.cnv :=
  CNV.mk_cnv "X" 15000000 "M" "XChrMale" "<DUP>"
             {["END" := "16000000"; "HGNC" := "TEST"]}
             (Some "TEST") None "" None None.

(** A call on the Y chromosome of a female. *)
Definition female_y_dup : CNV.cnv :=
  CNV.mk_cnv "Y" 15000000 "F" "YChrFemale" "<DUP>"
             {["END" := "16000000"; "CNSOLIDATE" := "1"]}
             (Some "TEST") None "" None None.

(** A panel whose only gene lies away from [x_dup]. *)
Definition far_panel : gmap string CNV.gene_entry :=
  {["TEST" := CNV.mk_gene_entry (Some 5000) (Some 6000)]}.

Definition x_dup_with_panel : CNV.cnv :=
  CNV.mk_cnv "X" 15000000 "M" "XChrMale" "<DUP>"
             {["END" := "16000000"; "HGNC" := "TEST"]}
             (Some "TEST") (Some far_panel) "DUP" None None.

(** The same call reported on two genes, one of them unknown to the panel. *)
Definition x_dup_two_genes : CNV.cnv :=
  CNV.mk_cnv "X" 15000000 "M" "XChrMale" "<DUP>"
             {["END" := "16000000"; "HGNC" := "TEST"]}
             (Some "TEST,OTHER") (Some far_panel) "DUP" None None.

End Sample.

(** ** The filters of a point variant: SNV.check_filters *)

Module SNVFilter.
Import SNV.

(** What [check_filters] reads from the absent base classes: the
    consequence tests and the allele frequency of [VariantInfo], the
    attributes [self.filter], [self.info] and [self.known_genes] set by the
    [Variant] constructor. A frequency is a Python float; only its
    comparison [max_maf > 0.01] is used. *)
Class FilterBase : Type := {
  frequency : Type;
  is_lof : snv → bool;
  is_missense : snv → bool;
  find_max_allele_frequency : snv → option frequency;
  above_one_percent : frequency → bool;
  known_genes_loaded : snv → bool;
  get_overlapping_known_genes : snv → list string;
  filter_field : snv → string;
  info_has : snv → string → bool
}.

Section methods.
Context `{FB : FilterBase}.

Definition check_filters (v : snv) : bool * string :=
  if negb (is_lof v) && negb (is_missense v) then (false, "consequence")
  else
    let max_maf := find_max_allele_frequency v in
    if match max_maf with
       | Some maf => above_one_percent maf
       | None => false
       end
    then (false, "MAF")
    else if known_genes_loaded v
            && bool_decide (length (get_overlapping_known_genes v) = 0%nat)
    then (false, "HGNC")
    else if negb (bool_decide (filter_field v ∈ ["PASS"; "."])) then
      if negb (bool_decide (filter_field v = "LOW_VQSLOD"))
         || (negb (info_has v "DENOVO-SNP") && negb (info_has v "DENOVO-INDEL"))
      then (false, "FILTER")
      else (true, "passed all")
    else (true, "passed all").

Definition passes_filters (v : snv) : bool :=
  let '(pass_value, key) := check_filters v in pass_value.

End methods.
End SNVFilter.

(** ** The gene annotation of a structural variant *)

Module CNVAnnotation.
Import CNV.

Section methods.
Context `{VB : VariantBase} `{CB : CNVBase}.

Definition get_key : method cnv (string * Z * Z) :=
  range ← gets get_range;
  chrom ← get_chrom;
  method_ret (chrom, range.1, range.2).


End methods.
End CNVAnnotation.

(** ** More concrete variants *)

Module SampleMore.

(** Frequencies in parts per ten thousand; a rare missense variant that
    failed the VQSLOD filter and was called de novo. *)
Definition filter_base : SNVFilter.FilterBase := {|
  SNVFilter.frequency := Z;
  SNVFilter.is_lof := λ _, false;
  SNVFilter.is_missense := λ _, true;
  SNVFilter.find_max_allele_frequency := λ _, Some 12%Z;
  SNVFilter.above_one_percent := λ maf, (100 <? maf)%Z;
  SNVFilter.known_genes_loaded := λ _, true;
  SNVFilter.get_overlapping_known_genes := λ _, ["TEST"];
  SNVFilter.filter_field := λ _, "LOW_VQSLOD";
  SNVFilter.info_has := λ _ key, bool_decide (key = "DENOVO-SNP")
|}.

(** The same variant when it is common. *)
Definition common_filter_base : SNVFilter.FilterBase := {|
  SNVFilter.frequency := Z;
  SNVFilter.is_lof := λ _, false;
  SNVFilter.is_missense := λ _, true;
  SNVFilter.find_max_allele_frequency := λ _, Some 250%Z;
  SNVFilter.above_one_percent := λ maf, (100 <? maf)%Z;
  SNVFilter.known_genes_loaded := λ _, true;
  SNVFilter.get_overlapping_known_genes := λ _, [];
  SNVFilter.filter_field := λ _, "LOW_VQSLOD";
  SNVFilter.info_has := λ _ _, false
|}.

(** A point variant on chromosome 1 of a female, with the genotype field
    [gt]. *)
Definition autosomal_snv (gt : string) : SNV.snv :=
  SNV.mk_snv "A" "G" "F" "autosomal" (Some {["GT" := gt; "DP" := "50"]})
             0 ∅ ∅ ∅ ∅.

(** A point variant on the Y chromosome of a male. *)
Definition male_y_snv (gt : string) : SNV.snv :=
  SNV.mk_snv "A" "G" "M" "YChrMale" (Some {["GT" := gt; "DP" := "50"]})
             0 ∅ ∅ ∅ ∅.

(** A duplication on the X chromosome without an END annotation. *)
Definition x_dup_without_end : CNV.cnv :=
  CNV.mk_cnv "X" 15000000 "M" "XChrMale" "<DUP>"
             {["HGNC" := "TEST"; "CNSOLIDATE" := "1"]}
             (Some "TEST") None "" None None.

(** An exome-only call on chromosome 1. *)
Definition exome_only_dup : CNV.cnv :=
  CNV.mk_cnv "1" 15000000 "F" "autosomal" "<DUP>"
             {["END" := "16000000"; "CONVEX" := "1"]}
             (Some "TEST") None "" None None.

(** A call reported on two genes. *)
Definition two_gene_dup : CNV.cnv :=
  CNV.mk_cnv "1" 5500 "F" "autosomal" "<DUP>"
             {["END" := "7000"; "HGNC" := "TEST"; "HGNC_ALL" := "TEST,OTHER"]}
             (Some "TEST,OTHER") None "DUP" None None.

(** A panel that knows both genes, only the first of which the call
    reaches. *)
Definition near_panel : gmap string CNV.gene_entry :=
  {["TEST" := CNV.mk_gene_entry (Some 5000) (Some 6000);
    "OTHER" := CNV.mk_gene_entry (Some 9000) (Some 9500)]}.

Definition two_gene_dup_with_panel : CNV.cnv :=
  CNV.mk_cnv "1" 5500 "F" "autosomal" "<DUP>"
             {["END" := "7000"; "HGNC" := "TEST"; "HGNC_ALL" := "TEST,OTHER"]}
             (Some "TEST,OTHER") (Some near_panel) "DUP" None None.

(** A panel entry without coordinates, as the unit tests add for TEST2. *)
Definition bare_panel : gmap string CNV.gene_entry :=
  {["TEST" := CNV.mk_gene_entry None None]}.

Definition dup_with_bare_panel : CNV.cnv :=
  CNV.mk_cnv "1" 5500 "F" "autosomal" "<DUP>"
             {["END" := "7000"; "HGNC" := "TEST"]}
             (Some "TEST") (Some bare_panel) "DUP" None None.


End SampleMore.

(** * Properties *)

(** ** Strings *)

Lemma has_char_app sep a b :
  has_char sep (a ++ b) = has_char sep a || has_char sep b.
Proof.
  induction a as [|c a IH]; simpl; [done|].
  destruct (Ascii.eqb c sep); [done|]. exact IH.
Qed.

Lemma has_char_cons sep c s :
  has_char sep (String c s) = Ascii.eqb c sep || has_char sep s.
Proof. simpl. by destruct (Ascii.eqb c sep). Qed.

(** Without the separator there is nothing to split. *)
Lemma split_absent sep s : has_char sep s = false → split sep s = [s].
Proof.
  induction s as [|c s IH]; simpl; [done|].
  destruct (Ascii.eqb c sep); [done|]. intros H. by rewrite IH.
Qed.

(** The first separator ends the first part. *)
Lemma split_at_first sep a b :
  has_char sep a = false → split sep (a ++ String sep b) = a :: split sep b.
Proof.
  induction a as [|c a IH]; simpl.
  - intros _. by rewrite Ascii.eqb_refl.
  - destruct (Ascii.eqb c sep); [done|]. intros H. by rewrite IH.
Qed.

Lemma split_pair sep a b :
  has_char sep a = false → has_char sep b = false →
  split sep (a ++ String sep b) = [a; b].
Proof. intros Ha Hb. by rewrite split_at_first, split_absent. Qed.

Lemma length_app_sep a sep b :
  String.length (a ++ String sep b) = S (String.length a + String.length b).
Proof. induction a as [|c a IH]; simpl; [done|]. by rewrite IH. Qed.

Lemma length_zero_empty s : String.length s = 0%nat → s = "".
Proof. by destruct s. Qed.

(** [str] of an integer names it. *)
Lemma pretty_Z_is (z k : Z) : pretty z = pretty k ↔ z = k.
Proof. split; [apply (inj pretty)|by intros ->]. Qed.

(** ** Point variants *)

Module SNVFacts.
Import SNV.

Section facts.
Context `{VB : VariantBase}.

Lemma convert_genotype_single g :
  String.length g = 1%nat →
  convert_genotype g = Raise (ValueError ["genotype is only a single character"]).
Proof. intros H. unfold convert_genotype. by rewrite bool_decide_eq_true_2. Qed.

Lemma alleles_of_pair (sep : ascii) a1 a2 :
  sep = "/"%char ∨ sep = "|"%char →
  has_char "/" a1 = false → has_char "|" a1 = false →
  has_char "/" a2 = false → has_char "|" a2 = false →
  match unpack2 (split "/" (a1 ++ String sep a2)) with
  | Raise (ValueError _) => unpack2 (split "|" (a1 ++ String sep a2))
  | r => r
  end = Ok (a1, a2).
Proof.
  intros [-> | ->] H1 H1' H2 H2'.
  - by rewrite split_pair.
  - rewrite (split_absent "/").
    + simpl. by rewrite split_pair.
    + by rewrite has_char_app, has_char_cons, H1, H2.
Qed.

Lemma convert_genotype_pair (sep : ascii) a1 a2 :
  sep = "/"%char ∨ sep = "|"%char →
  has_char "/" a1 = false → has_char "|" a1 = false →
  has_char "/" a2 = false → has_char "|" a2 = false →
  is_number a1 = true → is_number a2 = true →
  a1 ≠ "" ∨ a2 ≠ "" →
  convert_genotype (a1 ++ String sep a2)
  = Ok (if bool_decide (a1 ≠ a2) then 1
        else if bool_decide (a1 = "0") then 0 else 2).
Proof.
  intros Hsep H1 H1' H2 H2' N1 N2 Hne. unfold convert_genotype.
  rewrite bool_decide_eq_false_2.
  - rewrite alleles_of_pair by done. rewrite N1, N2. simpl.
    repeat case_bool_decide; simpl; congruence.
  - rewrite length_app_sep. intros Hlen.
    assert (String.length a1 = 0%nat ∧ String.length a2 = 0%nat) as [L1 L2] by lia.
    apply length_zero_empty in L1, L2. tauto.
Qed.

(** C3. A genotype made of two numeric alleles around "/" or "|" converts
    to a count among 0, 1 and 2: 0 when both alleles are "0", 1 when the
    alleles differ, 2 when they are equal and not "0". Whatever the
    genotype, a count that is returned is 0, 1 or 2. A genotype of a single
    character raises ValueError. *)
Theorem convert_genotype_count :
  (∀ (sep : ascii) (a1 a2 : string),
     sep = "/"%char ∨ sep = "|"%char →
     has_char "/" a1 = false → has_char "|" a1 = false →
     has_char "/" a2 = false → has_char "|" a2 = false →
     is_number a1 = true → is_number a2 = true →
     a1 ≠ "" ∨ a2 ≠ "" →
     ∃ n : Z,
       convert_genotype (a1 ++ String sep a2) = Ok n
       ∧ (n = 0 ∨ n = 1 ∨ n = 2)
       ∧ (a1 = "0" ∧ a2 = "0" → n = 0)
       ∧ (a1 ≠ a2 → n = 1)
       ∧ (a1 = a2 ∧ a1 ≠ "0" → n = 2))
  ∧ (∀ (g : string) (n : Z),
       convert_genotype g = Ok n → n = 0 ∨ n = 1 ∨ n = 2)
  ∧ (∀ g : string,
       String.length g = 1%nat →
       ∃ args, convert_genotype g = Raise (ValueError args)).
Proof.
  split; [|split].
  - intros sep a1 a2 Hsep H1 H1' H2 H2' N1 N2 Hne.
    eexists. split; [by apply convert_genotype_pair|].
    repeat case_bool_decide; intuition congruence.
  - intros g n. unfold convert_genotype.
    case_bool_decide; [done|].
    destruct (match unpack2 (split "/" g) with
              | Raise (ValueError _) => unpack2 (split "|" g)
              | r => r
              end) as [[a1 a2]|e]; [|done].
    destruct (is_number a1), (is_number a2); simpl; try done.
    repeat case_bool_decide; simpl; intros [= <-]; auto.
  - intros g Hg. eexists. by apply convert_genotype_single.
Qed.

Lemma code_is (g k : Z) : bool_decide (pretty g = pretty k) = bool_decide (g = k).
Proof. apply bool_decide_ext, pretty_Z_is. Qed.

Lemma convert_allosomal_male v :
  is_male v = true →
  convert_allosomal_genotype_code_to_alleles v
  = if bool_decide (genotype v = 0) then (Ok tt, with_alleles {[ref_allele v]} v)
    else if bool_decide (genotype v = 2) then (Ok tt, with_alleles {[alt_allele v]} v)
    else if bool_decide (genotype v = 1)
    then (Raise (ValueError ["heterozygous X-chromomosome male"]), v)
    else (Raise (ValueError ["unknown genotype '" ++ pretty (genotype v)]), v).
Proof.
  intros Hm. unfold convert_allosomal_genotype_code_to_alleles.
  unfold method_bind, gets. rewrite Hm.
  change "0" with (pretty 0). change "2" with (pretty 2). change "1" with (pretty 1).
  rewrite !code_is. by repeat case_bool_decide.
Qed.

Lemma dispatch_allosomal v :
  inheritance_type v = "XChrMale" ∨ inheritance_type v = "XChrFemale" →
  convert_genotype_code_to_alleles v = convert_allosomal_genotype_code_to_alleles v.
Proof.
  intros H. unfold convert_genotype_code_to_alleles at 1.
  unfold method_bind at 1, gets at 1.
  by destruct H as [-> | ->].
Qed.

(** C4. In the XChrMale context of a male, count 0 resolves to the single
    allele {ref} and count 2 to {alt}: afterwards [alleles] is that set,
    equal to the reference set [hom_ref], respectively [hom_alt], that
    [set_reference_genotypes] stores ({ref}, {} and {alt}), and nothing else
    of the variant has changed. Count 1 raises ValueError and so does every
    other count, with [alleles] left as it was. In either X context a gender
    that is neither male nor female raises ValueError. *)
Theorem male_x_alleles (v : snv) :
  (inheritance_type v = "XChrMale" → is_male v = true →
     (genotype v = 0 →
        convert_genotype_code_to_alleles v
        = (Ok tt, with_alleles {[ref_allele v]} v)
        ∧ (convert_genotype_code_to_alleles v).1 = Ok tt
        ∧ alleles (convert_genotype_code_to_alleles v).2 = {[ref_allele v]}
        ∧ alleles ((set_reference_genotypes;; convert_genotype_code_to_alleles) v).2
          = hom_ref ((set_reference_genotypes;; convert_genotype_code_to_alleles) v).2)
     ∧ (genotype v = 2 →
        convert_genotype_code_to_alleles v
        = (Ok tt, with_alleles {[alt_allele v]} v)
        ∧ (convert_genotype_code_to_alleles v).1 = Ok tt
        ∧ alleles (convert_genotype_code_to_alleles v).2 = {[alt_allele v]}
        ∧ alleles ((set_reference_genotypes;; convert_genotype_code_to_alleles) v).2
          = hom_alt ((set_reference_genotypes;; convert_genotype_code_to_alleles) v).2)
     ∧ (genotype v = 0 ∨ genotype v = 2 →
        let v' := (convert_genotype_code_to_alleles v).2 in
        ref_allele v' = ref_allele v ∧ alt_allele v' = alt_allele v
        ∧ gender v' = gender v ∧ inheritance_type v' = inheritance_type v
        ∧ format v' = format v ∧ genotype v' = genotype v
        ∧ hom_ref v' = hom_ref v ∧ het v' = het v ∧ hom_alt v' = hom_alt v)
     ∧ (genotype v = 1 →
        convert_genotype_code_to_alleles v
        = (Raise (ValueError ["heterozygous X-chromomosome male"]), v))
     ∧ (genotype v ≠ 0 → genotype v ≠ 1 → genotype v ≠ 2 →
        ∃ args, convert_genotype_code_to_alleles v = (Raise (ValueError args), v))
     ∧ (genotype v ≠ 0 → genotype v ≠ 2 →
        (∃ args, (convert_genotype_code_to_alleles v).1 = Raise (ValueError args))
        ∧ alleles (convert_genotype_code_to_alleles v).2 = alleles v)
     ∧ (let v' := (set_reference_genotypes v).2 in
        (set_reference_genotypes v).1 = Ok tt
        ∧ hom_ref v' = {[ref_allele v]} ∧ het v' = ∅
        ∧ hom_alt v' = {[alt_allele v]}
        ∧ alleles v' = alleles v ∧ genotype v' = genotype v))
  ∧ (inheritance_type v = "XChrMale" ∨ inheritance_type v = "XChrFemale" →
     is_male v = false → is_female v = false →
     ∃ args, convert_genotype_code_to_alleles v = (Raise (ValueError args), v)).
Proof.
  split.
  - intros Hinh Hm.
    pose (v1 := mk_snv (ref_allele v) (alt_allele v) (gender v)
                  (inheritance_type v) (format v) (genotype v) (alleles v)
                  {[ref_allele v]} ∅ {[alt_allele v]}).
    assert (set_reference_genotypes v = (Ok tt, v1)) as Href.
    { unfold set_reference_genotypes, method_bind, gets, modify, raise.
      repeat case_bool_decide; simpl; first [reflexivity | congruence]. }
    assert (∀ s, inheritance_type s = "XChrMale" → is_male s = true →
              convert_genotype_code_to_alleles s
              = if bool_decide (genotype s = 0)
                then (Ok tt, with_alleles {[ref_allele s]} s)
                else if bool_decide (genotype s = 2)
                then (Ok tt, with_alleles {[alt_allele s]} s)
                else if bool_decide (genotype s = 1)
                then (Raise (ValueError ["heterozygous X-chromomosome male"]), s)
                else (Raise (ValueError ["unknown genotype '"
                                         ++ pretty (genotype s)]), s)) as Hrun.
    { intros s Hs Hms. rewrite dispatch_allosomal by auto.
      by apply convert_allosomal_male. }
    unfold method_bind. rewrite Href. simpl.
    rewrite (Hrun v1 Hinh Hm), (Hrun v Hinh Hm). subst v1. simpl.
    split_and!.
    + intros ->. simpl. by split_and!.
    + intros ->. simpl. by split_and!.
    + intros [Hg | Hg]; rewrite !Hg; cbv zeta; simpl; by split_and!.
    + by intros ->.
    + intros H0 H1 H2. eexists. by rewrite !bool_decide_eq_false_2.
    + intros H0 H2. rewrite !(bool_decide_eq_false_2 (genotype v = 0)) by done.
      rewrite !(bool_decide_eq_false_2 (genotype v = 2)) by done.
      case_bool_decide; simpl; (split; [by eexists|done]).
    + done.
    + done.
    + done.
    + done.
    + done.
    + done.
  - intros Hinh Hm Hf. rewrite dispatch_allosomal by done.
    unfold convert_allosomal_genotype_code_to_alleles, method_bind, gets, raise.
    rewrite Hm, Hf. by eexists.
Qed.

End facts.

Lemma convert_genotype_count_witness :
  @convert_genotype Sample.base "0|1" = Ok 1
  ∧ ∃ args, @convert_genotype Sample.base "0" = Raise (ValueError args).
Proof.
  destruct (@convert_genotype_count Sample.base) as (Hpair & _ & Hsingle).
  split.
  - destruct (Hpair "|"%char "0" "1") as (n & Hn & _ & _ & Hdiff & _);
      [right; reflexivity | reflexivity | reflexivity | reflexivity
      | reflexivity | reflexivity | reflexivity | left; discriminate |].
    rewrite (Hdiff ltac:(discriminate)) in Hn. exact Hn.
  - apply Hsingle. reflexivity.
Defined.

Lemma male_x_alleles_witness :
  alleles (@convert_genotype_code_to_alleles Sample.base
             (with_genotype 2 (Sample.male_x_snv "1/1"))).2 = {["G"]}
  ∧ alleles (@convert_genotype_code_to_alleles Sample.base
               (with_genotype 0 (Sample.male_x_snv "0/0"))).2 = {["A"]}
  ∧ (∃ args,
       (@convert_genotype_code_to_alleles Sample.base
          (with_genotype 1 (Sample.male_x_snv "0/1"))).1
       = Raise (ValueError args))
  ∧ ∃ args,
      @convert_genotype_code_to_alleles Sample.base
        (mk_snv "A" "G" "unknown" "XChrFemale" None 0 ∅ ∅ ∅ ∅)
      = (Raise (ValueError args),
         mk_snv "A" "G" "unknown" "XChrFemale" None 0 ∅ ∅ ∅ ∅).
Proof.
  split; [|split; [|split]].
  - destruct (@male_x_alleles Sample.base
                (with_genotype 2 (Sample.male_x_snv "1/1"))) as [Hmale _].
    destruct (Hmale eq_refl eq_refl) as (_ & H2 & _).
    destruct (H2 eq_refl) as (_ & _ & Halt & _). exact Halt.
  - destruct (@male_x_alleles Sample.base
                (with_genotype 0 (Sample.male_x_snv "0/0"))) as [Hmale _].
    destruct (Hmale eq_refl eq_refl) as (H0 & _).
    destruct (H0 eq_refl) as (_ & _ & Href & _). exact Href.
  - destruct (@male_x_alleles Sample.base
                (with_genotype 1 (Sample.male_x_snv "0/1"))) as [Hmale _].
    destruct (Hmale eq_refl eq_refl) as (_ & _ & _ & _ & _ & Hhet & _).
    apply Hhet; discriminate.
  - destruct (@male_x_alleles Sample.base
                (mk_snv "A" "G" "unknown" "XChrFemale" None 0 ∅ ∅ ∅ ∅))
      as [_ Hgender].
    apply Hgender; [right; reflexivity | reflexivity | reflexivity].
Defined.

End SNVFacts.

(** ** Structural variants *)

Module CNVFacts.
Import CNV.

Section facts.
Context `{VB : VariantBase} `{CB : CNVBase}.

Lemma with_inheritance_type_id v : with_inheritance_type (inheritance_type v) v = v.
Proof. by destruct v. Qed.

(** Every run of [set_genotype]: either the END annotation cannot be read
    and nothing has changed, or the context [t] has been settled and the
    call ends in one of the four ways of its last two statements. *)
Lemma set_genotype_cases v :
  (∃ e, set_genotype v = (Raise e, v)
        ∧ chrom v ∈ ["chrX"; "ChrX"; "X"; "chrY"; "ChrY"; "Y"]
        ∧ (info v !! "END" = None
           ∨ ∃ s, info v !! "END" = Some s ∧ py_int s = None))
  ∨ ∃ t,
      (((chrom v ∉ ["chrX"; "ChrX"; "X"; "chrY"; "ChrY"; "Y"])
        ∧ t = inheritance_type v)
       ∨ (chrom v ∈ ["chrX"; "ChrX"; "X"; "chrY"; "ChrY"; "Y"]
          ∧ ∃ s z, info v !! "END" = Some s ∧ py_int s = Some z
            ∧ t = if bool_decide (inheritance_type v
                                  ≠ resolve_inheritance_type (chrom v) z (gender v))
                     && bool_decide (inheritance_type v ≠ "autosomal")
                  then resolve_inheritance_type (chrom v) (position v) (gender v)
                  else resolve_inheritance_type (chrom v) z (gender v)))
      ∧ ((t = "YChrFemale"
          ∧ set_genotype v
            = (Raise (ValueError ["cannot have CNV on female Y chromosome"]),
               with_inheritance_type t v))
         ∨ (t ≠ "YChrFemale" ∧ alt_allele v = "<DUP>"
            ∧ set_genotype v
              = (Ok tt, with_genotype "DUP" (with_inheritance_type t v)))
         ∨ (t ≠ "YChrFemale" ∧ alt_allele v = "<DEL>"
            ∧ set_genotype v
              = (Ok tt, with_genotype "DEL" (with_inheritance_type t v)))
         ∨ (t ≠ "YChrFemale" ∧ alt_allele v ≠ "<DUP>" ∧ alt_allele v ≠ "<DEL>"
            ∧ set_genotype v
              = (Raise (ValueError ["unknown CNV allele code"]),
                 with_inheritance_type t v))).
Proof.
  unfold set_genotype, method_bind, get_chrom, get_position,
    get_inheritance_type, set_inheritance_type, getitem, int, gets, modify,
    raise, pass, method_ret.
  case_bool_decide as Hchrom.
  - destruct (info v !! "END") as [s|] eqn:Hend; simpl.
    + destruct (py_int s) as [z|] eqn:Hint; simpl.
      * right.
        exists (if bool_decide (inheritance_type v
                                ≠ resolve_inheritance_type (chrom v) z (gender v))
                   && bool_decide (inheritance_type v ≠ "autosomal")
                then resolve_inheritance_type (chrom v) (position v) (gender v)
                else resolve_inheritance_type (chrom v) z (gender v)).
        split; [right; split; [done|]; by exists s, z|].
        repeat case_bool_decide; simpl; repeat case_bool_decide; simpl;
          try congruence; eauto 10.
      * left. eexists. split; [done|]. split; [done|]. right. by exists s.
    + left. eexists. split; [done|]. split; [done|]. by left.
  - right. exists (inheritance_type v). split; [by left|].
    simpl. rewrite with_inheritance_type_id.
    repeat case_bool_decide; simpl; try congruence; eauto 10.
Qed.

(** C6. [set_genotype] leaves the start position as it found it. For a
    variant on X or Y whose stored context is the one of its start, the
    context of the end is resolved with the END annotation as the position;
    when the two differ the variant ends in the one that is not autosomal,
    and when they agree it keeps it. *)
Theorem set_genotype_boundary_context (v : cnv) :
  position (set_genotype v).2 = position v
  ∧ ∀ (s : string) (z : Z),
      chrom v ∈ ["chrX"; "ChrX"; "X"; "chrY"; "ChrY"; "Y"] →
      info v !! "END" = Some s → py_int s = Some z →
      inheritance_type v
      = resolve_inheritance_type (chrom v) (position v) (gender v) →
      let start_inh := resolve_inheritance_type (chrom v) (position v) (gender v) in
      let end_inh := resolve_inheritance_type (chrom v) z (gender v) in
      let final := inheritance_type (set_genotype v).2 in
      (start_inh ≠ end_inh →
         final ≠ "autosomal"
         ∧ (start_inh ≠ "autosomal" → final = start_inh)
         ∧ (start_inh = "autosomal" → final = end_inh))
      ∧ (start_inh = end_inh → final = start_inh).
Proof.
  split.
  - destruct (set_genotype_cases v) as [(e & -> & _) | (t & _ & H)]; [done|].
    destruct H as [(_ & ->) | [(_ & _ & ->) | [(_ & _ & ->) | (_ & _ & _ & ->)]]];
      done.
  - intros s z Hchrom Hend Hint Hstored. simpl.
    destruct (set_genotype_cases v) as [(e & _ & _ & Hbad) | (t & Ht & H)].
    { destruct Hbad as [Hbad | (s' & Hs' & Hbad)]; congruence. }
    assert (inheritance_type (set_genotype v).2 = t) as ->.
    { destruct H as [(_ & ->) | [(_ & _ & ->) | [(_ & _ & ->) | (_ & _ & _ & ->)]]];
        done. }
    destruct Ht as [(Hout & _) | (_ & s' & z' & Hs' & Hz' & ->)]; [done|].
    assert (s' = s) as -> by congruence.
    assert (z' = z) as -> by congruence.
    rewrite Hstored.
    repeat case_bool_decide; simpl; split; intros; repeat split; intros;
      congruence.
Qed.

Lemma is_alt_genotype (g : string) : g ∈ alt_genotypes ↔ g = "DEL" ∨ g = "DUP".
Proof. unfold alt_genotypes. set_solver. Qed.

Lemma is_ref_genotype (g : string) : g ∈ ref_genotypes ↔ g = "REF".
Proof. unfold ref_genotypes. set_solver. Qed.

Lemma set_genotype_ok v v' :
  set_genotype v = (Ok tt, v') → genotype v' = "DEL" ∨ genotype v' = "DUP".
Proof.
  intros Hrun.
  destruct (set_genotype_cases v) as [(e & He & _) | (t & _ & H)]; [congruence|].
  destruct H as [(_ & H) | [(_ & _ & H) | [(_ & _ & H) | (_ & _ & _ & H)]]];
    rewrite H in Hrun; inversion Hrun; auto.
Qed.

(** C9. Once [set_genotype] or [set_default_genotype] has set the genotype
    it is REF, DEL or DUP; [is_het], [is_hom_alt] and [is_not_ref] then give
    the same answer, true exactly for DEL and DUP, and [is_hom_ref] and
    [is_not_alt] both give its negation, true exactly for REF. *)
Theorem zygosity_predicates_collapse (v v' : cnv) :
  set_genotype v = (Ok tt, v') ∨ set_default_genotype v = (Ok tt, v') →
  (genotype v' = "REF" ∨ genotype v' = "DEL" ∨ genotype v' = "DUP")
  ∧ is_het v' = is_hom_alt v'
  ∧ is_hom_alt v' = is_not_ref v'
  ∧ is_het v' = bool_decide (genotype v' = "DEL" ∨ genotype v' = "DUP")
  ∧ is_hom_ref v' = is_not_alt v'
  ∧ is_hom_ref v' = negb (is_het v')
  ∧ is_hom_ref v' = bool_decide (genotype v' = "REF").
Proof.
  intros Hset.
  assert (genotype v' = "REF" ∨ genotype v' = "DEL" ∨ genotype v' = "DUP") as Hg.
  { destruct Hset as [Hrun | Hrun].
    - right. by eapply set_genotype_ok.
    - left. unfold set_default_genotype, modify in Hrun. by inversion Hrun. }
  split; [done|]. split; [done|]. split; [done|].
  split; [apply bool_decide_ext, is_alt_genotype|].
  split; [done|].
  split; [|apply bool_decide_ext, is_ref_genotype].
  unfold is_hom_ref, is_het.
  rewrite (bool_decide_ext _ _ (is_ref_genotype _)).
  rewrite (bool_decide_ext _ _ (is_alt_genotype _)).
  destruct Hg as [-> | [-> | ->]]; reflexivity.
Qed.

Lemma passes_filters_caught v args :
  (set_genotype v).1 = Raise (ValueError args) →
  passes_filters v = (Ok false, (set_genotype v).2).
Proof.
  unfold passes_filters. destruct (set_genotype v) as [r v']. simpl.
  by intros ->.
Qed.

Lemma snv_set_genotype_converted (p : SNV.snv) fields gt g :
  SNV.format p = Some fields → fields !! "GT" = Some gt →
  SNV.convert_genotype gt = Ok g →
  SNV.set_genotype p
  = (SNV.set_reference_genotypes;; SNV.convert_genotype_code_to_alleles)
      (SNV.with_genotype g p).
Proof.
  intros Hf Hgt Hconv.
  unfold SNV.set_genotype, method_bind, gets, getitem, lift, modify, method_ret.
  by rewrite Hf, Hgt, Hconv.
Qed.

(** C5. [CNV.set_genotype] raises ValueError when the context it settles
    on is YChrFemale, and when the alternate allele is neither <DUP> nor
    <DEL>; whenever it raises ValueError, [CNV.passes_filters] returns False
    instead. [SNV.set_genotype] hands on the ValueError of a missing
    genotype field, of [convert_genotype] and of the resolution of the
    alleles, as for a heterozygous call on the X of a male. *)
Theorem value_error_caught_for_cnv_raised_for_snv (v : cnv) (p : SNV.snv) :
  ((chrom v ∈ ["chrX"; "ChrX"; "X"; "chrY"; "ChrY"; "Y"] →
      ∃ s z, info v !! "END" = Some s ∧ py_int s = Some z) →
   (inheritance_type (set_genotype v).2 = "YChrFemale" →
      (set_genotype v).1
      = Raise (ValueError ["cannot have CNV on female Y chromosome"]))
   ∧ (inheritance_type (set_genotype v).2 ≠ "YChrFemale" →
      alt_allele v ≠ "<DUP>" → alt_allele v ≠ "<DEL>" →
      (set_genotype v).1 = Raise (ValueError ["unknown CNV allele code"])))
  ∧ (∀ args, (set_genotype v).1 = Raise (ValueError args) →
       passes_filters v = (Ok false, (set_genotype v).2))
  ∧ (SNV.format p = None →
       SNV.set_genotype p = (Raise (ValueError ["cannot find a genotype"]), p))
  ∧ (∀ fields gt args,
       SNV.format p = Some fields → fields !! "GT" = Some gt →
       SNV.convert_genotype gt = Raise (ValueError args) →
       SNV.set_genotype p = (Raise (ValueError args), p))
  ∧ (∀ fields gt g args p',
       SNV.format p = Some fields → fields !! "GT" = Some gt →
       SNV.convert_genotype gt = Ok g →
       (SNV.set_reference_genotypes;; SNV.convert_genotype_code_to_alleles)
         (SNV.with_genotype g p) = (Raise (ValueError args), p') →
       SNV.set_genotype p = (Raise (ValueError args), p'))
  ∧ (∀ fields gt,
       SNV.format p = Some fields → fields !! "GT" = Some gt →
       SNV.convert_genotype gt = Ok 1 →
       SNV.inheritance_type p = "XChrMale" → SNV.is_male p = true →
       (SNV.set_genotype p).1
       = Raise (ValueError ["heterozygous X-chromomosome male"])).
Proof.
  split; [|split; [|split; [|split; [|split]]]].
  - intros Hread.
    destruct (set_genotype_cases v) as [(e & _ & Hchrom & Hbad) | (t & _ & H)].
    { destruct (Hread Hchrom) as (s & z & Hs & Hz).
      destruct Hbad as [Hbad | (s' & Hs' & Hbad)]; congruence. }
    destruct H as [(Ht & ->) | [(Ht & Ha & ->) | [(Ht & Ha & ->) | (Ht & Hu & Hd & ->)]]];
      simpl; split; intros; congruence.
  - intros args. apply passes_filters_caught.
  - intros Hf.
    unfold SNV.set_genotype, method_bind, gets, raise. by rewrite Hf.
  - intros fields gt args Hf Hgt Hconv.
    unfold SNV.set_genotype, method_bind, gets, getitem, lift, method_ret.
    by rewrite Hf, Hgt, Hconv.
  - intros fields gt g args p' Hf Hgt Hconv Hrest.
    by rewrite (snv_set_genotype_converted p fields gt g).
  - intros fields gt Hf Hgt Hconv Hinh Hmale.
    rewrite (snv_set_genotype_converted p fields gt 1) by done.
    unfold method_bind at 1.
    unfold SNV.set_reference_genotypes, method_bind, gets, modify.
    simpl. rewrite Hinh. simpl.
    rewrite SNVFacts.dispatch_allosomal by (left; exact Hinh).
    rewrite SNVFacts.convert_allosomal_male by exact Hmale.
    reflexivity.
Qed.

(** The genes that [fix_gene_IDs] keeps: those the panel does not know and
    those whose panel range meets the range of the variant. *)
Lemma fix_gene_IDs_loop_kept known start end_ reported acc genes :
  fix_gene_IDs_loop known start end_ reported acc = Ok genes →
  ∃ kept, genes = (acc ++ kept)%list
    ∧ ∀ g, g ∈ kept →
        g ∈ reported
        ∧ (known = None
           ∨ ∃ panel, known = Some panel
               ∧ (panel !! g = None
                  ∨ ∃ entry gs ge, panel !! g = Some entry
                      ∧ gene_start entry = Some gs ∧ gene_end entry = Some ge
                      ∧ (start ≤ ge)%Z ∧ (end_ >= gs)%Z)).
Proof.
  revert acc genes.
  induction reported as [|gene rest IH]; intros acc genes; simpl.
  - intros [= <-]. exists []. rewrite app_nil_r. split; [done|].
    intros g Hg. by apply elem_of_nil in Hg.
  - destruct known as [panel|] eqn:Hknown.
    + destruct (panel !! gene) as [entry|] eqn:Hentry.
      * destruct (gene_start entry) as [gs|] eqn:Hgs; [|done].
        destruct (gene_end entry) as [ge|] eqn:Hge; [|done].
        destruct ((start <=? ge)%Z && (end_ >=? gs)%Z) eqn:Hov.
        -- intros Hrun. destruct (IH _ _ Hrun) as (kept & -> & Hkept).
           exists (gene :: kept). rewrite <- app_assoc. split; [done|].
           intros g [-> | Hg]%elem_of_cons.
           ++ split; [left|]. right. exists panel. split; [done|]. right.
              exists entry, gs, ge. apply andb_true_iff in Hov as [H1 H2].
              repeat split; try done; lia.
           ++ destruct (Hkept g Hg) as [Hin Hs]. split; [by right|done].
        -- intros Hrun. destruct (IH _ _ Hrun) as (kept & -> & Hkept).
           exists kept. split; [done|].
           intros g Hg. destruct (Hkept g Hg) as [Hin Hs]. split; [by right|done].
      * intros Hrun. destruct (IH _ _ Hrun) as (kept & -> & Hkept).
        exists (gene :: kept). rewrite <- app_assoc. split; [done|].
        intros g [-> | Hg]%elem_of_cons.
        -- split; [left|]. right. exists panel. split; [done|]. by left.
        -- destruct (Hkept g Hg) as [Hin Hs]. split; [by right|done].
    + intros Hrun. destruct (IH _ _ Hrun) as (kept & -> & Hkept).
      exists (gene :: kept). rewrite <- app_assoc. split; [done|].
      intros g [-> | Hg]%elem_of_cons.
      * split; [left|by left].
      * destruct (Hkept g Hg) as [Hin Hs]. split; [by right|done].
Qed.

(** When the panel knows every reported gene and none overlaps, the loop
    adds nothing. *)
Lemma fix_gene_IDs_loop_none panel start end_ reported acc :
  (∀ g, g ∈ reported →
     ∃ entry gs ge, panel !! g = Some entry
       ∧ gene_start entry = Some gs ∧ gene_end entry = Some ge
       ∧ ¬ ((start ≤ ge)%Z ∧ (end_ >= gs)%Z)) →
  fix_gene_IDs_loop (Some panel) start end_ reported acc = Ok acc.
Proof.
  induction reported as [|gene rest IH]; intros Hall; simpl; [done|].
  destruct (Hall gene) as (entry & gs & ge & -> & -> & -> & Hno); [by left|].
  replace ((start <=? ge)%Z && (end_ >=? gs)%Z) with false.
  - apply IH. intros g Hg. apply Hall. by right.
  - symmetry. apply andb_false_iff.
    destruct (Z.leb_spec start ge); [|by left].
    destruct (Z.geb_spec end_ gs); [|by right]. lia.
Qed.

Lemma get_genes_runs v : ∃ reported, get_genes v = (Ok reported, v).
Proof.
  unfold get_genes, method_bind, gets, method_ret.
  destruct (gene v) as [names|]; [|by eexists].
  destruct (has_char "," names); by eexists.
Qed.

(** C10. When the panel knows every gene reported on the variant and none
    of their ranges meets the range of the variant, [fix_gene_IDs] returns
    with the variant as it was. When it does change the gene annotation, the
    new annotation joins a non-empty list of reported genes, each of them
    unknown to the panel or overlapping the variant, and nothing else
    changes. *)
Theorem fix_gene_IDs_keeps_annotation (v : cnv) :
  (∀ panel reported,
     known_genes v = Some panel → (get_genes v).1 = Ok reported →
     (∀ g, g ∈ reported →
        ∃ entry gs ge, panel !! g = Some entry
          ∧ gene_start entry = Some gs ∧ gene_end entry = Some ge
          ∧ ¬ (((get_range v).1 ≤ ge)%Z ∧ ((get_range v).2 >= gs)%Z)) →
     fix_gene_IDs v = (Ok tt, v))
  ∧ (gene (fix_gene_IDs v).2 ≠ gene v →
     ∃ reported genes g,
       (get_genes v).1 = Ok reported
       ∧ fix_gene_IDs v = (Ok tt, with_gene (Some (join "," genes)) v)
       ∧ g ∈ genes
       ∧ ∀ g, g ∈ genes →
           g ∈ reported
           ∧ (known_genes v = None
              ∨ ∃ panel, known_genes v = Some panel
                  ∧ (panel !! g = None
                     ∨ ∃ entry gs ge, panel !! g = Some entry
                         ∧ gene_start entry = Some gs ∧ gene_end entry = Some ge
                         ∧ ((get_range v).1 ≤ ge)%Z ∧ ((get_range v).2 >= gs)%Z))).
Proof.
  destruct (get_genes_runs v) as (reported & Hget).
  split.
  - intros panel reported' Hknown Hrep Hall.
    rewrite Hget in Hrep. simpl in Hrep. injection Hrep as <-.
    unfold fix_gene_IDs, method_bind, gets at 1. simpl.
    rewrite Hget. unfold gets, lift. rewrite Hknown.
    by rewrite fix_gene_IDs_loop_none.
  - unfold fix_gene_IDs, method_bind, gets at 1. simpl.
    rewrite Hget. unfold gets, lift.
    destruct (fix_gene_IDs_loop (known_genes v) (get_range v).1 (get_range v).2
                reported []) as [genes|e] eqn:Hloop; [|done].
    destruct (fix_gene_IDs_loop_kept _ _ _ _ _ _ Hloop) as (kept & Hk & Hkept).
    simpl in Hk. subst kept.
    case_bool_decide as Hlen; [|done].
    intros _. destruct genes as [|g genes]; [simpl in Hlen; lia|].
    exists reported, (g :: genes), g. split; [done|]. split; [done|].
    split; [by left|]. exact Hkept.
Qed.

End facts.

Lemma value_error_caught_for_cnv_raised_for_snv_witness :
  (@set_genotype Sample.base Sample.female_y_dup).1
  = Raise (ValueError ["cannot have CNV on female Y chromosome"])
  ∧ (@passes_filters Sample.base Sample.cnv_base Sample.female_y_dup).1 = Ok false
  ∧ (@SNV.set_genotype Sample.base (Sample.male_x_snv "0/1")).1
    = Raise (ValueError ["heterozygous X-chromomosome male"]).
Proof.
  destruct (@value_error_caught_for_cnv_raised_for_snv Sample.base Sample.cnv_base
              Sample.female_y_dup (Sample.male_x_snv "0/1"))
    as (Hcnv & Hcaught & _ & _ & _ & Hsnv).
  assert ((@set_genotype Sample.base Sample.female_y_dup).1
          = Raise (ValueError ["cannot have CNV on female Y chromosome"])) as Hy.
  { apply Hcnv; [|reflexivity].
    intros _. exists "16000000", 16000000. split; reflexivity. }
  split; [exact Hy|]. split.
  - rewrite (Hcaught _ Hy). reflexivity.
  - apply (Hsnv {["GT" := "0/1"; "DP" := "50"]} "0/1"); reflexivity.
Defined.

Lemma set_genotype_boundary_context_witness :
  position (@set_genotype Sample.base Sample.par_crossing_dup).2 = 2000000
  ∧ inheritance_type (@set_genotype Sample.base Sample.par_crossing_dup).2
    = "XChrMale".
Proof.
  destruct (@set_genotype_boundary_context Sample.base Sample.par_crossing_dup)
    as [Hpos Hctx].
  split; [exact Hpos|].
  destruct (Hctx "3000000" 3000000) as [Hdiffer _].
  - apply (proj1 (bool_decide_eq_true _)). reflexivity.
  - reflexivity.
  - reflexivity.
  - reflexivity.
  - destruct Hdiffer as (_ & _ & Hend); [discriminate|].
    rewrite Hend; reflexivity.
Defined.

Lemma zygosity_predicates_collapse_witness :
  is_het (@set_genotype Sample.base Sample.x_dup).2 = true
  ∧ is_hom_alt (@set_genotype Sample.base Sample.x_dup).2 = true
  ∧ is_hom_ref (@set_genotype Sample.base Sample.x_dup).2 = false.
Proof.
  destruct (@zygosity_predicates_collapse Sample.base Sample.x_dup
              (@set_genotype Sample.base Sample.x_dup).2 (or_introl eq_refl))
    as (_ & Hsame & _ & Hhet & _ & Href & _).
  rewrite Href, <- Hsame, Hhet. repeat split; reflexivity.
Defined.

Lemma fix_gene_IDs_keeps_annotation_witness :
  @fix_gene_IDs Sample.cnv_base Sample.x_dup_with_panel
  = (Ok tt, Sample.x_dup_with_panel)
  ∧ ∃ genes,
      @fix_gene_IDs Sample.cnv_base Sample.x_dup_two_genes
      = (Ok tt, with_gene (Some (join "," genes)) Sample.x_dup_two_genes).
Proof.
  split.
  - apply (proj1 (@fix_gene_IDs_keeps_annotation Sample.cnv_base
                    Sample.x_dup_with_panel) Sample.far_panel ["TEST"]);
      [reflexivity | reflexivity |].
    intros g Hg. apply list_elem_of_singleton in Hg. subst g.
    exists (mk_gene_entry (Some 5000) (Some 6000)), 5000, 6000.
    split; [reflexivity|]. split; [reflexivity|]. split; [reflexivity|].
    simpl. lia.
  - destruct (proj2 (@fix_gene_IDs_keeps_annotation Sample.cnv_base
                       Sample.x_dup_two_genes))
      as (reported & genes & g & _ & Hrun & _).
    + vm_compute. discriminate.
    + exists genes. exact Hrun.
Defined.

End CNVFacts.

(** ** The inheritance engines *)

Module AutosomalFacts.
Import Autosomal.

Section facts.
Context {V : Type}.

Lemma not_extended {A} (l : list A) (x : A) : l ≠ (l ++ [x])%list.
Proof.
  intros H. apply (f_equal length) in H. rewrite length_app in H. simpl in H. lia.
Qed.

(** The model passes the unit test. *)
Lemma add_variant_to_appropriate_list_tested (var : V) :
  test_add_variant_to_appropriate_list add_variant_to_appropriate_list var.
Proof. by repeat split. Qed.

(** The routing of §4.3 taken word for word does not: the unit test wants
    a hemizygous entry among the compound heterozygotes. *)
Lemma route_as_specified_fails_test (var : V) :
  ¬ test_add_variant_to_appropriate_list route_as_specified var.
Proof. intros (_ & (Hcand & _) & _). discriminate Hcand. Qed.

(** Any implementation that passes the unit test keeps a hemizygous entry
    out of the candidates. *)
Lemma tested_hemizygous_not_candidate
    (impl : V → string → string → method (engine V) unit) (var : V) :
  test_add_variant_to_appropriate_list impl var →
  candidates (impl var "hemizygous" "Monoallelic" (mk_engine [] [])).2 = []
  ∧ compound_hets (impl var "hemizygous" "Monoallelic" (mk_engine [] [])).2
    = [(var, "hemizygous", "Monoallelic")].
Proof. by intros (_ & H & _). Qed.

(** C1, as the code has it. An entry is appended to the candidates exactly
    when the check is "single_variant", and to the compound heterozygotes
    exactly when the check is "compound_het" or "hemizygous"; any other
    check leaves both lists as they were. *)
Theorem add_variant_routes (variant : V) (check inheritance : string)
    (s : engine V) :
  let e := (variant, check, inheritance) in
  let s' := (add_variant_to_appropriate_list variant check inheritance s).2 in
  (add_variant_to_appropriate_list variant check inheritance s).1 = Ok tt
  ∧ (candidates s' = (candidates s ++ [e])%list ↔ check = "single_variant")
  ∧ (compound_hets s' = (compound_hets s ++ [e])%list
     ↔ check = "compound_het" ∨ check = "hemizygous")
  ∧ (candidates s' = candidates s ∨ candidates s' = (candidates s ++ [e])%list)
  ∧ (compound_hets s' = compound_hets s
     ∨ compound_hets s' = (compound_hets s ++ [e])%list)
  ∧ (check ≠ "single_variant" → check ≠ "compound_het" →
     check ≠ "hemizygous" → s' = s).
Proof.
  unfold add_variant_to_appropriate_list, modify, pass, method_ret.
  pose proof (not_extended (candidates s) (variant, check, inheritance)) as Hc.
  pose proof (not_extended (compound_hets s) (variant, check, inheritance)) as Hh.
  repeat case_bool_decide; simpl; subst;
    repeat split; intros; try done; try tauto; try congruence; auto.
  all: try (destruct s; done).
  all: intuition congruence.
Qed.

End facts.

Lemma add_variant_routes_witness :
  (add_variant_to_appropriate_list "var" "nothing" "Monoallelic" (mk_engine [] [])).2
  = mk_engine [] [].
Proof.
  apply (add_variant_routes "var" "nothing" "Monoallelic" (mk_engine [] []));
    discriminate.
Defined.

(** C1 as it was stated fails for the check "hemizygous": the entry is not
    appended to the candidates, it is appended to the compound
    heterozygotes. *)
Lemma hemizygous_not_routed_to_candidates :
  let e := ("var", "hemizygous", "Monoallelic") in
  let s := mk_engine [] [] in
  let s' := (add_variant_to_appropriate_list "var" "hemizygous" "Monoallelic" s).2 in
  candidates s' ≠ (candidates s ++ [e])%list
  ∧ candidates s' = []
  ∧ compound_hets s' = (compound_hets s ++ [e])%list.
Proof. repeat split. discriminate. Qed.

End AutosomalFacts.

Module AllosomalFacts.
Import Allosomal.

(** The model passes the unit test. *)
Lemma check_homozygous_male_tested :
  test_check_homozygous_male check_homozygous_male.
Proof. repeat split. by exists []. Qed.

(** Any implementation that passes the unit test rejects the variant of a
    heterozygous affected mother. *)
Lemma tested_rejects_het_affected_mother
    (impl : string → method engine string) :
  test_check_homozygous_male impl →
  (impl "X-linked dominant" (trio Het HomRef true false)).1 = Ok "nothing".
Proof. intros (_ & _ & H & _). by injection H. Qed.

(** C2, as the code has it. For a male proband under X-linked dominant or
    Hemizygous inheritance, [check_homozygous] answers "single_variant" with
    the reason "male X chrom inherited from het mother or hom affected
    mother" exactly when the mother is heterozygous and unaffected, or
    homozygous for the alternate allele and affected. *)
Theorem check_homozygous_male_inherited (inheritance : string) (s : engine) :
  inheritance = "X-linked dominant" ∨ inheritance = "Hemizygous" →
  let r := check_homozygous_male inheritance s in
  (r.1 = Ok "single_variant"
   ∧ log_string r.2
     = "male X chrom inherited from het mother or hom affected mother")
  ↔ (mom s = Het ∧ mother_affected s = false)
    ∨ (mom s = HomAlt ∧ mother_affected s = true).
Proof.
  intros Hmode. unfold check_homozygous_male.
  rewrite bool_decide_eq_true_2 by (destruct Hmode as [-> | ->]; set_solver).
  unfold method_bind, gets, modify, method_ret. simpl.
  destruct (mom s), (mother_affected s); simpl; split;
    intros; intuition (try discriminate; try done).
Qed.

Lemma check_homozygous_male_inherited_witness :
  (check_homozygous_male "X-linked dominant" (trio Het HomRef false false)).1
  = Ok "single_variant".
Proof.
  apply (proj2 (check_homozygous_male_inherited "X-linked dominant"
                  (trio Het HomRef false false) (or_introl eq_refl))).
  left. split; reflexivity.
Defined.

(** C2 as it was stated fails for a heterozygous mother who is affected:
    the answer is "nothing". *)
Lemma het_affected_mother_rejected :
  let r := check_homozygous_male "X-linked dominant" (trio Het HomRef true false) in
  r.1 = Ok "nothing"
  ∧ r.1 ≠ Ok "single_variant"
  ∧ log_string r.2 = "variant not compatible with being causal".
Proof. repeat split. discriminate. Qed.

End AllosomalFacts.

Module CNVInheritanceFacts.
Import CNVInheritance.

Lemma passes_intragenic_dup_tested : passes_intragenic_dup_tests = true.
Proof. reflexivity. Qed.

Lemma dominant_mode (inh : string) :
  inh ∈ ["Monoallelic"; "X-linked dominant"]
  ↔ inh = "Monoallelic" ∨ inh = "X-linked dominant".
Proof. rewrite !elem_of_cons, elem_of_nil. tauto. Qed.

(** C7. [passes_intragenic_dup] holds exactly for a DUP under Monoallelic
    or X-linked dominant whose span lies strictly inside the gene or passes
    exactly one of its two boundaries. In the gene [5000, 6000] the
    duplication [5200, 5800] passes, [4800, 6200] and [5000, 6000] fail,
    [5200, 6200] and [4800, 5800] pass; a DEL fails and so does any other
    mode. *)
Theorem passes_intragenic_dup_spans :
  (∀ (genotype inh : string) (cnv_start cnv_end gene_start gene_end : Z),
     passes_intragenic_dup genotype (cnv_start, cnv_end) (gene_start, gene_end) inh
     = true
     ↔ genotype = "DUP"
       ∧ (inh = "Monoallelic" ∨ inh = "X-linked dominant")
       ∧ ((gene_start < cnv_start ∧ cnv_end < gene_end)%Z
          ∨ (cnv_start < gene_start ∧ cnv_end ≤ gene_end)%Z
          ∨ (gene_start ≤ cnv_start ∧ gene_end < cnv_end)%Z))
  ∧ passes_intragenic_dup "DUP" (5200, 5800) (5000, 6000) "Monoallelic" = true
  ∧ passes_intragenic_dup "DUP" (4800, 6200) (5000, 6000) "Monoallelic" = false
  ∧ passes_intragenic_dup "DUP" (5000, 6000) (5000, 6000) "Monoallelic" = false
  ∧ passes_intragenic_dup "DUP" (5200, 6200) (5000, 6000) "Monoallelic" = true
  ∧ passes_intragenic_dup "DUP" (4800, 5800) (5000, 6000) "Monoallelic" = true
  ∧ (∀ cnv_range gene_range inh,
       passes_intragenic_dup "DEL" cnv_range gene_range inh = false)
  ∧ (∀ genotype cnv_range gene_range inh,
       inh ≠ "Monoallelic" → inh ≠ "X-linked dominant" →
       passes_intragenic_dup genotype cnv_range gene_range inh = false).
Proof.
  split; [|repeat split; try reflexivity].
  - intros genotype inh cs ce gs ge. unfold passes_intragenic_dup.
    rewrite !andb_true_iff, !bool_decide_eq_true.
    unfold strictly_contained, protrudes_5', protrudes_3'.
    rewrite dominant_mode.
    destruct (Z.ltb_spec gs cs), (Z.ltb_spec ce ge), (Z.ltb_spec cs gs),
      (Z.ltb_spec ge ce); simpl; intuition (try discriminate; try lia).
  - intros [cs ce] [gs ge] inh. reflexivity.
  - intros genotype [cs ce] [gs ge] inh H1 H2. unfold passes_intragenic_dup.
    rewrite (bool_decide_eq_false_2 (inh ∈ _)) by (rewrite dominant_mode; tauto).
    by rewrite andb_false_r.
Qed.

Lemma passes_intragenic_dup_spans_witness :
  passes_intragenic_dup "DUP" (4800, 5800) (5000, 6000) "Biallelic" = false.
Proof.
  apply passes_intragenic_dup_spans; discriminate.
Defined.

Lemma overlap_sym a b c d : overlap a b c d = overlap c d a b.
Proof. unfold overlap. by rewrite Z.min_comm, Z.max_comm. Qed.

Lemma has_enough_overlap_tested :
  run_test_has_enough_overlap has_enough_overlap = true.
Proof. reflexivity. Qed.

(** Read as a share of the shorter interval alone, the rule would accept
    the third case of the unit test. *)
Lemma has_enough_overlap_of_shorter_fails_test :
  run_test_has_enough_overlap has_enough_overlap_of_shorter = false
  ∧ has_enough_overlap_of_shorter 1000 1009 1000 2000 = true.
Proof. split; reflexivity. Qed.

(** C8. [has_enough_overlap] accepts (1000, 2000, 1000, 2000) and
    (1000, 1010, 1000, 2000), rejects (1000, 1009, 1000, 2000), and gives the
    same answer when the two intervals are exchanged. *)
Theorem has_enough_overlap_symmetric :
  has_enough_overlap 1000 2000 1000 2000 = true
  ∧ has_enough_overlap 1000 1010 1000 2000 = true
  ∧ has_enough_overlap 1000 1009 1000 2000 = false
  ∧ ∀ start_a end_a start_b end_b : Z,
      has_enough_overlap start_a end_a start_b end_b
      = has_enough_overlap start_b end_b start_a end_a.
Proof.
  repeat split; try reflexivity.
  intros a b c d. unfold has_enough_overlap.
  rewrite (overlap_sym c d a b). apply andb_comm.
Qed.

End CNVInheritanceFacts.

(** * Further properties of the variant classes *)

(** ** Splitting and joining *)

Lemma split_nonempty sep s : split sep s ≠ [].
Proof.
  destruct s as [|c s]; simpl; [done|].
  destruct (Ascii.eqb c sep); [done|]. by destruct (split sep s).
Qed.

(** Joining the parts of a split with the separator gives the string back. *)
Lemma join_split (sep : ascii) s : join (String sep "") (split sep s) = s.
Proof.
  induction s as [|c s IH]; simpl; [done|].
  destruct (Ascii.eqb c sep) eqn:Hc.
  - apply Ascii.eqb_eq in Hc as ->.
    pose proof (split_nonempty sep s) as Hne.
    destruct (split sep s) as [|p ps]; [done|]. simpl in *. by rewrite IH.
  - destruct (split sep s) as [|p ps] eqn:Hs.
    + by destruct (split_nonempty sep s).
    + rewrite <- IH. by destruct ps.
Qed.

(** No part of a split holds the separator. *)
Lemma split_parts_clean (sep : ascii) s p :
  p ∈ split sep s → has_char sep p = false.
Proof.
  revert p. induction s as [|c s IH]; intros p; simpl.
  - by intros ->%list_elem_of_singleton.
  - destruct (Ascii.eqb c sep) eqn:Hc.
    + intros [-> | Hp]%elem_of_cons; [done|]. by apply IH.
    + destruct (split sep s) as [|q qs] eqn:Hs.
      * intros ->%list_elem_of_singleton. simpl. by rewrite Hc.
      * intros [-> | Hp]%elem_of_cons.
        -- simpl. rewrite Hc. apply IH. by left.
        -- apply IH. by right.
Qed.

(** Splitting a join of separator-free parts gives the parts back. *)
Lemma split_join (sep : ascii) parts :
  parts ≠ [] → (∀ p, p ∈ parts → has_char sep p = false) →
  split sep (join (String sep "") parts) = parts.
Proof.
  induction parts as [|p ps IH]; [done|]. intros _ Hclean.
  destruct ps as [|q qs].
  - simpl. apply split_absent, Hclean. by left.
  - change (join (String sep "") (p :: q :: qs))
      with (p ++ String sep (join (String sep "") (q :: qs))).
    rewrite split_at_first by (apply Hclean; by left).
    rewrite IH; [done|done|]. intros r Hr. apply Hclean. by right.
Qed.

(** Two parts come from one separator between them. *)
Lemma split_two (sep : ascii) s a b :
  split sep s = [a; b] → s = a ++ String sep b.
Proof.
  intros Hs. rewrite <- (join_split sep s), Hs. reflexivity.
Qed.

(** ** Point variants, continued *)

Module SNVMore.
Import SNV.

Section facts.
Context `{VB : VariantBase}.

Lemma unpack2_two parts a b : unpack2 parts = Ok (a, b) → parts = [a; b].
Proof.
  destruct parts as [|x [|y [|z rest]]]; simpl; try done. by intros [= -> ->].
Qed.

Lemma unpack2_raises parts e :
  unpack2 parts = Raise e → ∃ args, e = ValueError args ∧ length parts ≠ 2%nat.
Proof.
  destruct parts as [|x [|y [|z rest]]]; simpl; try done;
    intros [= <-]; eexists; split; done.
Qed.

(** What [convert_genotype] returns, read backwards. *)
Lemma convert_genotype_ok g n :
  convert_genotype g = Ok n →
  ∃ (sep : ascii) a1 a2,
    (sep = "/"%char ∨ sep = "|"%char) ∧ g = a1 ++ String sep a2
    ∧ is_number a1 = true ∧ is_number a2 = true
    ∧ n = (if bool_decide (a1 ≠ a2) then 1
           else if bool_decide (a1 = "0") then 0 else 2).
Proof.
  unfold convert_genotype. case_bool_decide as Hlen; [done|].
  destruct (unpack2 (split "/" g)) as [[a1 a2]|e] eqn:Hslash.
  - apply unpack2_two, split_two in Hslash.
    destruct (is_number a1) eqn:N1; [|done]. destruct (is_number a2) eqn:N2; [|done].
    simpl. intros Hn. exists "/"%char, a1, a2.
    split; [by left|]. split; [done|]. split; [done|]. split; [done|].
    repeat case_bool_decide; simpl in Hn; congruence.
  - destruct (unpack2_raises _ _ Hslash) as (args & -> & _).
    destruct (unpack2 (split "|" g)) as [[a1 a2]|e] eqn:Hbar; [|done].
    apply unpack2_two, split_two in Hbar.
    destruct (is_number a1) eqn:N1; [|done]. destruct (is_number a2) eqn:N2; [|done].
    simpl. intros Hn. exists "|"%char, a1, a2.
    split; [by right|]. split; [done|]. split; [done|]. split; [done|].
    repeat case_bool_decide; simpl in Hn; congruence.
Qed.

Lemma convert_genotype_in_range g n :
  convert_genotype g = Ok n → n = 0 ∨ n = 1 ∨ n = 2.
Proof.
  intros (sep & a1 & a2 & _ & _ & _ & _ & ->)%convert_genotype_ok.
  repeat case_bool_decide; auto.
Qed.

(** X1. A count is only ever returned for a genotype of exactly two parts
    around one "/" or one "|": the genotype is the two parts with the
    separator between them, neither part holds that separator, so that
    splitting on it gives exactly these two parts, and "|" is only used when
    "/" does not cut the genotype in two. Both parts are accepted by
    [is_number], and the count is the one of that pair. *)
Theorem convert_genotype_only_pairs (g : string) (n : Z) :
  convert_genotype g = Ok n →
  ∃ (sep : ascii) (a1 a2 : string),
    (sep = "/"%char ∨ sep = "|"%char) ∧ g = a1 ++ String sep a2
    ∧ has_char sep a1 = false ∧ has_char sep a2 = false
    ∧ split sep g = [a1; a2]
    ∧ (sep = "|"%char → length (split "/" g) ≠ 2%nat)
    ∧ is_number a1 = true ∧ is_number a2 = true
    ∧ (a1 ≠ a2 → n = 1) ∧ (a1 = "0" → a2 = "0" → n = 0)
    ∧ (a1 = a2 → a1 ≠ "0" → n = 2).
Proof.
  unfold convert_genotype. case_bool_decide as Hlen; [done|].
  assert (∀ (sep : ascii) a1 a2,
            split sep g = [a1; a2] →
            g = a1 ++ String sep a2
            ∧ has_char sep a1 = false ∧ has_char sep a2 = false) as Hparts.
  { intros sep a1 a2 Hs. split; [by apply split_two|].
    split; apply (split_parts_clean sep g); rewrite Hs.
    - by left.
    - right. by left. }
  assert (∀ a1 a2 : string,
            (if negb (is_number a1) then Raise AssertionError
             else if negb (is_number a2) then Raise AssertionError
             else if bool_decide (a1 ≠ a2) then Ok 1
             else if bool_decide (a1 = "0") && bool_decide (a2 = "0")
             then Ok 0 else Ok 2) = Ok n →
            is_number a1 = true ∧ is_number a2 = true
            ∧ (a1 ≠ a2 → n = 1) ∧ (a1 = "0" → a2 = "0" → n = 0)
            ∧ (a1 = a2 → a1 ≠ "0" → n = 2)) as Hcount.
  { intros a1 a2.
    destruct (is_number a1); [|done]. destruct (is_number a2); [|done]. simpl.
    repeat case_bool_decide; simpl; intros [= <-]; split_and!; try done;
      intros; congruence. }
  destruct (unpack2 (split "/" g)) as [[a1 a2]|e] eqn:Hslash.
  - apply unpack2_two in Hslash. intros Hn.
    destruct (Hparts _ _ _ Hslash) as (Hg & H1 & H2).
    destruct (Hcount _ _ Hn) as (N1 & N2 & Hc1 & Hc0 & Hc2).
    exists "/"%char, a1, a2. split_and!; try done. by left.
  - destruct (unpack2_raises _ _ Hslash) as (args & -> & Hnot).
    destruct (unpack2 (split "|" g)) as [[a1 a2]|e] eqn:Hbar; [|done].
    apply unpack2_two in Hbar. intros Hn.
    destruct (Hparts _ _ _ Hbar) as (Hg & H1 & H2).
    destruct (Hcount _ _ Hn) as (N1 & N2 & Hc1 & Hc0 & Hc2).
    exists "|"%char, a1, a2. split_and!; try done. by right.
Qed.

(** X2. A genotype that neither "/" nor "|" splits into exactly two parts
    raises ValueError; so does one that holds neither separator, the empty
    string included. *)
Theorem convert_genotype_malformed (g : string) :
  (length (split "/" g) ≠ 2%nat → length (split "|" g) ≠ 2%nat →
   ∃ args, convert_genotype g = Raise (ValueError args))
  ∧ (has_char "/" g = false → has_char "|" g = false →
     ∃ args, convert_genotype g = Raise (ValueError args)).
Proof.
  assert (length (split "/" g) ≠ 2%nat → length (split "|" g) ≠ 2%nat →
          ∃ args, convert_genotype g = Raise (ValueError args)) as Hparts.
  { intros Hslash Hbar. unfold convert_genotype.
    case_bool_decide; [by eexists|].
    destruct (unpack2 (split "/" g)) as [[a1 a2]|e] eqn:H1.
    { apply unpack2_two in H1. by rewrite H1 in Hslash. }
    destruct (unpack2_raises _ _ H1) as (args & -> & _).
    destruct (unpack2 (split "|" g)) as [[a1 a2]|e] eqn:H2.
    { apply unpack2_two in H2. by rewrite H2 in Hbar. }
    destruct (unpack2_raises _ _ H2) as (args' & -> & _). by eexists. }
  split; [exact Hparts|].
  intros Hslash Hbar. apply Hparts; by rewrite split_absent.
Qed.

(** X3. The count does not depend on the phasing mark nor on the order of
    the two alleles. *)
Theorem convert_genotype_unordered (a1 a2 : string) :
  has_char "/" a1 = false → has_char "|" a1 = false →
  has_char "/" a2 = false → has_char "|" a2 = false →
  is_number a1 = true → is_number a2 = true →
  a1 ≠ "" ∨ a2 ≠ "" →
  convert_genotype (a1 ++ String "/" a2) = convert_genotype (a1 ++ String "|" a2)
  ∧ convert_genotype (a1 ++ String "/" a2) = convert_genotype (a2 ++ String "/" a1)
  ∧ convert_genotype (a1 ++ String "|" a2) = convert_genotype (a2 ++ String "|" a1).
Proof.
  intros H1 H1' H2 H2' N1 N2 Hne.
  rewrite !SNVFacts.convert_genotype_pair by (done || tauto).
  assert (∀ b1 b2 : string, b1 = "0" → b2 = "0" → b1 = b2) as Hz by congruence.
  repeat split; repeat case_bool_decide; try done; try congruence.
Qed.

End facts.

Lemma convert_genotype_only_pairs_witness :
  ∃ (sep : ascii) (a1 a2 : string),
    "1|1" = a1 ++ String sep a2
    ∧ has_char sep a1 = false ∧ has_char sep a2 = false
    ∧ split sep "1|1" = [a1; a2].
Proof.
  destruct (@convert_genotype_only_pairs Sample.base "1|1" 2 eq_refl)
    as (sep & a1 & a2 & _ & Hg & H1 & H2 & Hs & _).
  exists sep, a1, a2. split; [exact Hg|]. split; [exact H1|].
  split; [exact H2|exact Hs].
Defined.

Lemma convert_genotype_malformed_witness :
  (∃ args, @convert_genotype Sample.base "0/1/2" = Raise (ValueError args))
  ∧ ∃ args, @convert_genotype Sample.base "" = Raise (ValueError args).
Proof.
  split.
  - apply (proj1 (@convert_genotype_malformed Sample.base "0/1/2")); discriminate.
  - apply (proj2 (@convert_genotype_malformed Sample.base "")); reflexivity.
Defined.

Lemma convert_genotype_unordered_witness :
  @convert_genotype Sample.base "0/1" = @convert_genotype Sample.base "1|0".
Proof.
  destruct (@convert_genotype_unordered Sample.base "0" "1")
    as (Hphase & _ & Horder);
    [reflexivity | reflexivity | reflexivity | reflexivity | reflexivity
    | reflexivity | left; discriminate |].
  change "0/1" with ("0" ++ String "/" "1").
  change "1|0" with ("1" ++ String "|" "0").
  rewrite Hphase. exact Horder.
Defined.

End SNVMore.

Module SNVZygosity.
Import SNV.

(** Python sets of one or two alleles. *)
Lemma in_set2 (a b x : string) : x ∈ set2 a b ↔ x = a ∨ x = b.
Proof. unfold set2. by rewrite elem_of_union, !elem_of_singleton. Qed.

Lemma set2_same (a : string) : set2 a a = {[a]}.
Proof.
  apply set_eq. intros x. rewrite in_set2, elem_of_singleton. tauto.
Qed.

Lemma singleton_eq (a b : string) : ({[a]} : gset string) = {[b]} ↔ a = b.
Proof.
  split; [|by intros ->]. intros Heq.
  assert (a ∈ ({[b]} : gset string)) as Hin
    by (rewrite <- Heq; by apply elem_of_singleton).
  by apply elem_of_singleton in Hin.
Qed.

Lemma pair_eq_left (a b : string) : set2 a b = {[a]} ↔ a = b.
Proof.
  split; [|intros ->; apply set2_same]. intros Heq.
  assert (b ∈ ({[a]} : gset string)) as Hin
    by (rewrite <- Heq; apply in_set2; by right).
  apply elem_of_singleton in Hin. by symmetry.
Qed.

Lemma pair_eq_right (a b : string) : set2 a b = {[b]} ↔ a = b.
Proof.
  split; [|intros ->; apply set2_same]. intros Heq.
  assert (a ∈ ({[b]} : gset string)) as Hin
    by (rewrite <- Heq; apply in_set2; by left).
  by apply elem_of_singleton in Hin.
Qed.

Lemma eq_pair_left (a b : string) : {[a]} = set2 a b ↔ a = b.
Proof. rewrite <- pair_eq_left. split; by intros ->. Qed.

Lemma eq_pair_right (a b : string) : {[b]} = set2 a b ↔ a = b.
Proof. rewrite <- pair_eq_right. split; by intros ->. Qed.

Lemma singleton_not_empty (a : string) : ({[a]} : gset string) ≠ ∅.
Proof.
  intros Heq. assert (a ∈ (∅ : gset string)) as Hin
    by (rewrite <- Heq; by apply elem_of_singleton).
  by apply not_elem_of_empty in Hin.
Qed.

Lemma negate_ref v : is_not_ref v = negb (is_hom_ref v).
Proof. apply bool_decide_not. Qed.

Lemma negate_alt v : is_not_alt v = negb (is_hom_alt v).
Proof. apply bool_decide_not. Qed.

(** Settles [predicate = answer] once the allele sets are explicit. *)
Ltac read_zygosity :=
  unfold is_hom_ref, is_het, is_hom_alt; simpl;
  apply Bool.eq_iff_eq_true; rewrite ?bool_decide_eq_true;
  rewrite ?set2_same, ?singleton_eq, ?pair_eq_left, ?pair_eq_right,
    ?eq_pair_left, ?eq_pair_right;
  intuition (try lia; try congruence; try discriminate).

Section facts.
Context `{VB : VariantBase}.

Lemma convert_autosomal v :
  convert_autosomal_genotype_code_to_alleles v
  = if bool_decide (genotype v = 0)
    then (Ok tt, with_alleles (set2 (ref_allele v) (ref_allele v)) v)
    else if bool_decide (genotype v = 1)
    then (Ok tt, with_alleles (set2 (ref_allele v) (alt_allele v)) v)
    else if bool_decide (genotype v = 2)
    then (Ok tt, with_alleles (set2 (alt_allele v) (alt_allele v)) v)
    else (Raise (ValueError ["unknown genotype '" ++ pretty (genotype v)]), v).
Proof.
  unfold convert_autosomal_genotype_code_to_alleles, method_bind, gets.
  change "0" with (pretty 0). change "1" with (pretty 1). change "2" with (pretty 2).
  rewrite !SNVFacts.code_is. by repeat case_bool_decide.
Qed.

(** The alleles of a call once the count is known, in each context. *)
Lemma convert_code v :
  convert_genotype_code_to_alleles v
  = if bool_decide (inheritance_type v = "autosomal")
    then convert_autosomal_genotype_code_to_alleles v
    else if bool_decide (inheritance_type v = "XChrMale")
            || bool_decide (inheritance_type v = "XChrFemale")
    then if is_male v then convert_allosomal_genotype_code_to_alleles v
         else if is_female v then convert_autosomal_genotype_code_to_alleles v
         else (Raise (ValueError ["Unknown gender: " ++ gender v]), v)
    else (Ok tt, v).
Proof.
  unfold convert_genotype_code_to_alleles at 1. unfold method_bind at 1, gets at 1.
  case_bool_decide; [done|].
  destruct (bool_decide (inheritance_type v = "XChrMale")
            || bool_decide (inheritance_type v = "XChrFemale")); [|done].
  unfold convert_allosomal_genotype_code_to_alleles, method_bind, gets, raise.
  destruct (is_male v); [done|]. by destruct (is_female v).
Qed.

Lemma set_reference v :
  set_reference_genotypes v
  = if bool_decide (inheritance_type v = "autosomal")
       || bool_decide (inheritance_type v = "XChrFemale")
    then (Ok tt, mk_snv (ref_allele v) (alt_allele v) (gender v)
                   (inheritance_type v) (format v) (genotype v) (alleles v)
                   (set2 (ref_allele v) (ref_allele v))
                   (set2 (ref_allele v) (alt_allele v))
                   (set2 (alt_allele v) (alt_allele v)))
    else if bool_decide (inheritance_type v = "XChrMale")
    then (Ok tt, mk_snv (ref_allele v) (alt_allele v) (gender v)
                   (inheritance_type v) (format v) (genotype v) (alleles v)
                   {[ref_allele v]} ∅ {[alt_allele v]})
    else (Raise (ValueError ["unknown inheritance type:"; inheritance_type v]), v).
Proof.
  unfold set_reference_genotypes, method_bind, gets, modify, raise.
  destruct (bool_decide (inheritance_type v = "autosomal")
            || bool_decide (inheritance_type v = "XChrFemale")); [done|].
  by case_bool_decide.
Qed.

(** [set_genotype] once the genotype field has been converted. *)
Lemma set_genotype_converted v fields gt n :
  format v = Some fields → fields !! "GT" = Some gt → convert_genotype gt = Ok n →
  set_genotype v
  = (set_reference_genotypes;; convert_genotype_code_to_alleles) (with_genotype n v).
Proof.
  intros Hf Hgt Hconv.
  unfold set_genotype, method_bind, gets, getitem, lift, modify, method_ret.
  by rewrite Hf, Hgt, Hconv.
Qed.

(** X4. In a diploid context (autosomal, or XChrFemale for a female) a
    genotype that converts to the count [n] is always resolved, and the
    zygosity read back is the one of the count: with distinct reference and
    alternate alleles exactly one of [is_hom_ref], [is_het], [is_hom_alt]
    holds, for 0, 1 and 2; when the two alleles are the same string all three
    hold. *)
Theorem diploid_zygosity (v : snv) (fields : gmap string string)
    (gt : string) (n : Z) :
  format v = Some fields → fields !! "GT" = Some gt → convert_genotype gt = Ok n →
  inheritance_type v = "autosomal"
  ∨ (inheritance_type v = "XChrFemale" ∧ is_male v = false ∧ is_female v = true) →
  ∃ v', set_genotype v = (Ok tt, v')
    ∧ genotype v' = n
    ∧ is_hom_ref v' = bool_decide (n = 0 ∨ ref_allele v = alt_allele v)
    ∧ is_het v' = bool_decide (n = 1 ∨ ref_allele v = alt_allele v)
    ∧ is_hom_alt v' = bool_decide (n = 2 ∨ ref_allele v = alt_allele v)
    ∧ is_not_ref v' = negb (is_hom_ref v')
    ∧ is_not_alt v' = negb (is_hom_alt v').
Proof.
  intros Hf Hgt Hconv Hctx.
  rewrite (set_genotype_converted v fields gt n) by done.
  pose proof (SNVMore.convert_genotype_in_range gt n Hconv) as Hn.
  unfold method_bind. rewrite set_reference. simpl.
  assert (bool_decide (inheritance_type v = "autosomal")
          || bool_decide (inheritance_type v = "XChrFemale") = true) as ->.
  { destruct Hctx as [-> | (-> & _)]; reflexivity. }
  rewrite convert_code. simpl.
  assert (∀ s, (if bool_decide (inheritance_type v = "autosomal")
                then convert_autosomal_genotype_code_to_alleles s
                else if bool_decide (inheritance_type v = "XChrMale")
                        || bool_decide (inheritance_type v = "XChrFemale")
                then if is_male v then convert_allosomal_genotype_code_to_alleles s
                     else if is_female v
                          then convert_autosomal_genotype_code_to_alleles s
                          else (Raise (ValueError ["Unknown gender: " ++ gender v]), s)
                else (Ok tt, s))
               = convert_autosomal_genotype_code_to_alleles s) as Hdip.
  { intros s. destruct Hctx as [-> | (-> & -> & ->)]; reflexivity. }
  unfold is_male, is_female in *. simpl. rewrite Hdip. rewrite convert_autosomal. simpl.
  destruct Hn as [-> | [-> | ->]]; simpl; eexists; (split; [reflexivity|]);
    (split; [reflexivity|]); split_and!; try apply negate_ref; try apply negate_alt;
    read_zygosity.
Qed.

(** Resolving the reference sets and then the alleles, as one case
    analysis on the context and the gender. *)
Lemma resolve_alleles v :
  (set_reference_genotypes;; convert_genotype_code_to_alleles) v
  = let diploid :=
      mk_snv (ref_allele v) (alt_allele v) (gender v) (inheritance_type v)
        (format v) (genotype v) (alleles v)
        (set2 (ref_allele v) (ref_allele v)) (set2 (ref_allele v) (alt_allele v))
        (set2 (alt_allele v) (alt_allele v)) in
    let haploid :=
      mk_snv (ref_allele v) (alt_allele v) (gender v) (inheritance_type v)
        (format v) (genotype v) (alleles v)
        {[ref_allele v]} ∅ {[alt_allele v]} in
    let by_gender s :=
      if is_male v then convert_allosomal_genotype_code_to_alleles s
      else if is_female v then convert_autosomal_genotype_code_to_alleles s
      else (Raise (ValueError ["Unknown gender: " ++ gender v]), s) in
    if bool_decide (inheritance_type v = "autosomal")
    then convert_autosomal_genotype_code_to_alleles diploid
    else if bool_decide (inheritance_type v = "XChrFemale") then by_gender diploid
    else if bool_decide (inheritance_type v = "XChrMale") then by_gender haploid
    else (Raise (ValueError ["unknown inheritance type:"; inheritance_type v]), v).
Proof.
  unfold method_bind. rewrite set_reference.
  repeat case_bool_decide; simpl; try congruence; rewrite ?convert_code; simpl;
    repeat case_bool_decide; simpl; try congruence; reflexivity.
Qed.

(** X5. On the X chromosome of a male a genotype that converts to 0 or 2
    is always resolved and is never heterozygous: with distinct alleles it is
    homozygous for the reference exactly for 0 and for the alternate allele
    exactly for 2. *)
Theorem male_x_zygosity (v : snv) (fields : gmap string string)
    (gt : string) (n : Z) :
  format v = Some fields → fields !! "GT" = Some gt → convert_genotype gt = Ok n →
  inheritance_type v = "XChrMale" → is_male v = true → n ≠ 1 →
  ∃ v', set_genotype v = (Ok tt, v')
    ∧ genotype v' = n
    ∧ is_het v' = false
    ∧ is_hom_ref v' = bool_decide (n = 0 ∨ ref_allele v = alt_allele v)
    ∧ is_hom_alt v' = bool_decide (n = 2 ∨ ref_allele v = alt_allele v).
Proof.
  intros Hf Hgt Hconv Hctx Hmale Hn1.
  rewrite (set_genotype_converted v fields gt n) by done.
  pose proof (SNVMore.convert_genotype_in_range gt n Hconv) as Hn.
  rewrite resolve_alleles. simpl. rewrite Hctx. simpl.
  unfold is_male in *. simpl. rewrite Hmale.
  rewrite SNVFacts.convert_allosomal_male by exact Hmale. simpl.
  pose proof (singleton_not_empty (ref_allele v)) as Hr.
  pose proof (singleton_not_empty (alt_allele v)) as Ha.
  destruct Hn as [-> | [-> | ->]]; [|done|]; simpl; eexists;
    (split; [reflexivity|]); (split; [reflexivity|]); split_and!;
    try (unfold is_het; simpl; by apply bool_decide_eq_false_2);
    read_zygosity.
Qed.

(** X6. [set_default_genotype] succeeds exactly in the autosomal context
    and in an X context of a variant that is male or female; whenever it
    succeeds the call has count 0 and reads as homozygous for the
    reference. *)
Theorem default_genotype_is_hom_ref (v : snv) :
  ((set_default_genotype v).1 = Ok tt
   ↔ inheritance_type v = "autosomal"
     ∨ ((inheritance_type v = "XChrMale" ∨ inheritance_type v = "XChrFemale")
        ∧ (is_male v = true ∨ is_female v = true)))
  ∧ (∀ v', set_default_genotype v = (Ok tt, v') →
       genotype v' = 0 ∧ is_hom_ref v' = true ∧ is_not_ref v' = false).
Proof.
  assert (set_default_genotype v
          = (set_reference_genotypes;; convert_genotype_code_to_alleles)
              (with_genotype 0 v)) as -> by reflexivity.
  rewrite resolve_alleles. simpl.
  unfold is_male, is_female. simpl.
  destruct (is_male_code (gender v)) eqn:Hmale;
    destruct (is_female_code (gender v)) eqn:Hfemale;
    repeat case_bool_decide; simpl;
    rewrite ?convert_autosomal; simpl;
    rewrite ?SNVFacts.convert_allosomal_male by exact Hmale; simpl;
    (split; [intuition (try congruence; try discriminate)|]);
    intros v' [= <-]; rewrite negate_ref; unfold is_hom_ref; simpl;
    rewrite ?set2_same; by rewrite bool_decide_eq_true_2.
Qed.

Lemma set_genotype_unconverted v :
  format v = None
  ∨ (∃ fields, format v = Some fields
       ∧ (fields !! "GT" = None
          ∨ ∃ gt e, fields !! "GT" = Some gt ∧ convert_genotype gt = Raise e)) →
  ∃ e, set_genotype v = (Raise e, v).
Proof.
  unfold set_genotype, method_bind, gets, getitem, lift, raise, method_ret.
  intros [Hf | (fields & Hf & [Hgt | (gt & e & Hgt & Hconv)])]; rewrite Hf.
  - by eexists.
  - rewrite Hgt. by eexists.
  - rewrite Hgt, Hconv. by eexists.
Qed.

(** X7. [set_genotype] succeeds exactly when the variant has a GT field
    that converts to a count and the context can hold that count: the
    autosomal context, or an X context of a male whose count is not 1 or of a
    female. *)
Theorem set_genotype_succeeds_iff (v : snv) :
  (set_genotype v).1 = Ok tt
  ↔ ∃ fields gt n,
      format v = Some fields ∧ fields !! "GT" = Some gt
      ∧ convert_genotype gt = Ok n
      ∧ (inheritance_type v = "autosomal"
         ∨ ((inheritance_type v = "XChrMale" ∨ inheritance_type v = "XChrFemale")
            ∧ ((is_male v = true ∧ n ≠ 1)
               ∨ (is_male v = false ∧ is_female v = true)))).
Proof.
  destruct (format v) as [fields|] eqn:Hf.
  2:{ destruct (set_genotype_unconverted v) as (e & ->); [by left|].
      split; [done|]. by intros (? & ? & ? & ? & _). }
  destruct (fields !! "GT") as [gt|] eqn:Hgt.
  2:{ destruct (set_genotype_unconverted v) as (e & ->).
      { right. exists fields. split; [done|]. by left. }
      split; [done|]. intros (? & ? & ? & [= <-] & ? & _). congruence. }
  destruct (convert_genotype gt) as [n|e] eqn:Hconv.
  2:{ destruct (set_genotype_unconverted v) as (e' & ->).
      { right. exists fields. split; [done|]. right. by exists gt, e. }
      split; [done|]. intros (? & ? & ? & [= <-] & ? & ? & _). congruence. }
  rewrite (set_genotype_converted v fields gt n) by done.
  pose proof (SNVMore.convert_genotype_in_range gt n Hconv) as Hn.
  assert ((∃ fields' gt' n',
             Some fields = Some fields' ∧ fields' !! "GT" = Some gt'
             ∧ convert_genotype gt' = Ok n'
             ∧ (inheritance_type v = "autosomal"
                ∨ ((inheritance_type v = "XChrMale"
                    ∨ inheritance_type v = "XChrFemale")
                   ∧ ((is_male v = true ∧ n' ≠ 1)
                      ∨ (is_male v = false ∧ is_female v = true)))))
          ↔ (inheritance_type v = "autosomal"
             ∨ ((inheritance_type v = "XChrMale"
                 ∨ inheritance_type v = "XChrFemale")
                ∧ ((is_male v = true ∧ n ≠ 1)
                   ∨ (is_male v = false ∧ is_female v = true))))) as ->.
  { split.
    - intros (fields' & gt' & n' & [= <-] & Hgt' & Hconv' & H).
      assert (gt' = gt) as -> by congruence.
      assert (n' = n) as -> by congruence. done.
    - intros H. by exists fields, gt, n. }
  rewrite resolve_alleles. simpl.
  unfold is_male, is_female. simpl.
  destruct (is_male_code (gender v)) eqn:Hmale;
    destruct (is_female_code (gender v)) eqn:Hfemale;
    repeat case_bool_decide; simpl;
    rewrite ?convert_autosomal; simpl;
    rewrite ?SNVFacts.convert_allosomal_male by exact Hmale; simpl;
    destruct Hn as [-> | [-> | ->]]; simpl;
    intuition (try congruence; try discriminate; try lia).
Qed.

(** X8. [set_genotype] never touches the alleles of the record, the
    gender, the context or the format fields. When it raises, the resolved
    allele set is the one from before the call; when the genotype field is
    missing or does not convert, nothing at all has changed. *)
Theorem set_genotype_frame (v : snv) :
  ref_allele (set_genotype v).2 = ref_allele v
  ∧ alt_allele (set_genotype v).2 = alt_allele v
  ∧ gender (set_genotype v).2 = gender v
  ∧ inheritance_type (set_genotype v).2 = inheritance_type v
  ∧ format (set_genotype v).2 = format v
  ∧ ((set_genotype v).1 ≠ Ok tt → alleles (set_genotype v).2 = alleles v)
  ∧ (format v = None
     ∨ (∃ fields, format v = Some fields
          ∧ (fields !! "GT" = None
             ∨ ∃ gt e, fields !! "GT" = Some gt ∧ convert_genotype gt = Raise e)) →
     (set_genotype v).2 = v).
Proof.
  assert ((∃ e, set_genotype v = (Raise e, v))
          ∨ ∃ n, set_genotype v
                 = (set_reference_genotypes;; convert_genotype_code_to_alleles)
                     (with_genotype n v)) as [(e & Hrun) | (n & Hrun)].
  { destruct (format v) as [fields|] eqn:Hf.
    2:{ left. apply set_genotype_unconverted. by left. }
    destruct (fields !! "GT") as [gt|] eqn:Hgt.
    2:{ left. apply set_genotype_unconverted. right. exists fields. by split; [|left]. }
    destruct (convert_genotype gt) as [n|e] eqn:Hconv.
    - right. exists n. by apply (set_genotype_converted v fields gt n).
    - left. apply set_genotype_unconverted. right. exists fields.
      split; [done|]. right. by exists gt, e. }
  - rewrite Hrun. simpl. by split_and!.
  - split_and!.
    7:{ intros H. by destruct (set_genotype_unconverted v H) as (e & ->). }
    all: rewrite Hrun, resolve_alleles; simpl;
      unfold is_male, is_female; simpl;
      destruct (is_male_code (gender v)) eqn:Hmale;
      destruct (is_female_code (gender v)) eqn:Hfemale;
      repeat case_bool_decide; simpl;
      rewrite ?convert_autosomal; simpl;
      rewrite ?SNVFacts.convert_allosomal_male by exact Hmale; simpl;
      repeat case_bool_decide; simpl; done.
Qed.

End facts.

Lemma diploid_zygosity_witness :
  ∃ v', @set_genotype Sample.base (SampleMore.autosomal_snv "0/1") = (Ok tt, v')
        ∧ is_het v' = true ∧ is_hom_ref v' = false ∧ is_hom_alt v' = false.
Proof.
  destruct (@diploid_zygosity Sample.base (SampleMore.autosomal_snv "0/1")
              {["GT" := "0/1"; "DP" := "50"]} "0/1" 1)
    as (v' & Hrun & _ & Href & Hhet & Halt & _);
    [reflexivity | reflexivity | reflexivity | left; reflexivity |].
  exists v'. split; [exact Hrun|]. rewrite Href, Hhet, Halt.
  repeat split; reflexivity.
Defined.

Lemma male_x_zygosity_witness :
  ∃ v', @set_genotype Sample.base (Sample.male_x_snv "1/1") = (Ok tt, v')
        ∧ is_het v' = false ∧ is_hom_alt v' = true.
Proof.
  destruct (@male_x_zygosity Sample.base (Sample.male_x_snv "1/1")
              {["GT" := "1/1"; "DP" := "50"]} "1/1" 2)
    as (v' & Hrun & _ & Hhet & _ & Halt);
    [reflexivity | reflexivity | reflexivity | reflexivity | reflexivity
    | discriminate |].
  exists v'. split; [exact Hrun|]. rewrite Hhet, Halt. split; reflexivity.
Defined.

Lemma default_genotype_is_hom_ref_witness :
  is_hom_ref (@set_default_genotype Sample.base (Sample.male_x_snv "1/1")).2 = true
  ∧ (@set_default_genotype Sample.base (SampleMore.male_y_snv "1/1")).1 ≠ Ok tt.
Proof.
  split.
  - apply (proj2 (@default_genotype_is_hom_ref Sample.base (Sample.male_x_snv "1/1"))
             _ eq_refl).
  - intros Hok.
    apply (proj1 (@default_genotype_is_hom_ref Sample.base
                    (SampleMore.male_y_snv "1/1"))) in Hok.
    destruct Hok as [Hctx | ([Hctx | Hctx] & _)]; discriminate Hctx.
Defined.

Lemma set_genotype_succeeds_iff_witness :
  (@set_genotype Sample.base (Sample.male_x_snv "1/1")).1 = Ok tt.
Proof.
  apply (@set_genotype_succeeds_iff Sample.base (Sample.male_x_snv "1/1")).
  exists {["GT" := "1/1"; "DP" := "50"]}, "1/1", 2.
  split; [reflexivity|]. split; [reflexivity|]. split; [reflexivity|].
  right. split; [left; reflexivity|]. left. split; [reflexivity|discriminate].
Defined.

Lemma set_genotype_frame_witness :
  alleles (@set_genotype Sample.base (Sample.male_x_snv "0/1")).2 = ∅
  ∧ (@set_genotype Sample.base (Sample.male_x_snv "0")).2 = Sample.male_x_snv "0".
Proof.
  destruct (@set_genotype_frame Sample.base (Sample.male_x_snv "0/1"))
    as (_ & _ & _ & _ & _ & Hstale & _).
  destruct (@set_genotype_frame Sample.base (Sample.male_x_snv "0"))
    as (_ & _ & _ & _ & _ & _ & Hsame).
  split.
  - rewrite Hstale; [reflexivity|]. vm_compute. discriminate.
  - apply Hsame. right. exists {["GT" := "0"; "DP" := "50"]}.
    split; [reflexivity|]. right.
    exists "0", (ValueError ["genotype is only a single character"]).
    split; reflexivity.
Defined.

End SNVZygosity.

(** ** The filters of a point variant *)

Module SNVFilterFacts.
Import SNV SNVFilter.

Section facts.
Context `{FB : FilterBase}.

(** The early returns of [check_filters] as one chain of tests. *)
Lemma check_filters_chain (v : snv) :
  check_filters v
  = if negb (is_lof v || is_missense v) then (false, "consequence")
    else if match find_max_allele_frequency v with
            | Some maf => above_one_percent maf
            | None => false
            end
    then (false, "MAF")
    else if known_genes_loaded v
            && bool_decide (length (get_overlapping_known_genes v) = 0%nat)
    then (false, "HGNC")
    else if bool_decide (filter_field v ∈ ["PASS"; "."])
            || (bool_decide (filter_field v = "LOW_VQSLOD")
                && (info_has v "DENOVO-SNP" || info_has v "DENOVO-INDEL"))
    then (true, "passed all")
    else (false, "FILTER").
Proof.
  unfold check_filters.
  destruct (is_lof v), (is_missense v); simpl; try done;
    destruct (match find_max_allele_frequency v with
              | Some maf => above_one_percent maf
              | None => false
              end); try done;
    destruct (known_genes_loaded v
              && bool_decide (length (get_overlapping_known_genes v) = 0%nat));
    try done;
    destruct (bool_decide (filter_field v ∈ ["PASS"; "."])),
      (bool_decide (filter_field v = "LOW_VQSLOD")),
      (info_has v "DENOVO-SNP"), (info_has v "DENOVO-INDEL"); done.
Qed.

Lemma consequence_ok (v : snv) :
  is_lof v || is_missense v = true ↔ is_lof v = true ∨ is_missense v = true.
Proof. apply orb_true_iff. Qed.

Lemma frequency_ok (v : snv) :
  match find_max_allele_frequency v with
  | Some maf => above_one_percent maf
  | None => false
  end = false
  ↔ ∀ maf, find_max_allele_frequency v = Some maf → above_one_percent maf = false.
Proof.
  destruct (find_max_allele_frequency v) as [maf|].
  - split; [by intros H ? [= <-]|]. intros H. by apply H.
  - split; [by intros _ ? ?|done].
Qed.

Lemma frequency_high (v : snv) :
  match find_max_allele_frequency v with
  | Some maf => above_one_percent maf
  | None => false
  end = true
  ↔ ∃ maf, find_max_allele_frequency v = Some maf ∧ above_one_percent maf = true.
Proof.
  destruct (find_max_allele_frequency v) as [maf|].
  - split; [intros H; by exists maf|]. by intros (? & [= <-] & H).
  - split; [done|]. by intros (? & ? & _).
Qed.

Lemma known_gene_ok (v : snv) :
  known_genes_loaded v
  && bool_decide (length (get_overlapping_known_genes v) = 0%nat) = false
  ↔ (known_genes_loaded v = true → get_overlapping_known_genes v ≠ []).
Proof.
  destruct (known_genes_loaded v); simpl.
  - rewrite bool_decide_eq_false.
    destruct (get_overlapping_known_genes v) as [|g genes]; simpl.
    + split; [intros H; by destruct H|]. intros H _. by destruct (H eq_refl).
    + split; [by intros _ _|by intros _].
  - split; [by intros _ ?|done].
Qed.

Lemma known_gene_missing (v : snv) :
  known_genes_loaded v
  && bool_decide (length (get_overlapping_known_genes v) = 0%nat) = true
  ↔ known_genes_loaded v = true ∧ get_overlapping_known_genes v = [].
Proof.
  rewrite andb_true_iff, bool_decide_eq_true.
  destruct (get_overlapping_known_genes v) as [|g genes]; simpl; [tauto|].
  split; intros [_ H]; discriminate H.
Qed.

Lemma filter_field_ok (v : snv) :
  bool_decide (filter_field v ∈ ["PASS"; "."])
  || (bool_decide (filter_field v = "LOW_VQSLOD")
      && (info_has v "DENOVO-SNP" || info_has v "DENOVO-INDEL")) = true
  ↔ filter_field v = "PASS" ∨ filter_field v = "."
    ∨ (filter_field v = "LOW_VQSLOD"
       ∧ (info_has v "DENOVO-SNP" = true ∨ info_has v "DENOVO-INDEL" = true)).
Proof.
  rewrite orb_true_iff, andb_true_iff, orb_true_iff, !bool_decide_eq_true.
  rewrite !elem_of_cons, elem_of_nil. tauto.
Qed.

(** X9. A point variant passes the filters exactly when it is
    loss-of-function or missense, its largest allele frequency is unknown or
    not above 1%, it overlaps a known gene when known genes are loaded, and
    its FILTER is PASS or ".", or is LOW_VQSLOD on a variant flagged
    DENOVO-SNP or DENOVO-INDEL. *)
Theorem passes_filters_iff (v : snv) :
  passes_filters v = true
  ↔ (is_lof v = true ∨ is_missense v = true)
    ∧ (∀ maf, find_max_allele_frequency v = Some maf →
         above_one_percent maf = false)
    ∧ (known_genes_loaded v = true → get_overlapping_known_genes v ≠ [])
    ∧ (filter_field v = "PASS" ∨ filter_field v = "."
       ∨ (filter_field v = "LOW_VQSLOD"
          ∧ (info_has v "DENOVO-SNP" = true ∨ info_has v "DENOVO-INDEL" = true))).
Proof.
  unfold passes_filters. rewrite check_filters_chain.
  rewrite <- consequence_ok, <- frequency_ok, <- known_gene_ok, <- filter_field_ok.
  destruct (is_lof v || is_missense v); simpl; [|intuition discriminate].
  destruct (match find_max_allele_frequency v with
            | Some maf => above_one_percent maf
            | None => false
            end); [intuition discriminate|].
  destruct (known_genes_loaded v
            && bool_decide (length (get_overlapping_known_genes v) = 0%nat));
    [intuition discriminate|].
  destruct (bool_decide (filter_field v ∈ ["PASS"; "."])
            || (bool_decide (filter_field v = "LOW_VQSLOD")
                && (info_has v "DENOVO-SNP" || info_has v "DENOVO-INDEL")));
    intuition discriminate.
Qed.

(** X10. The key that [check_filters] returns names the first check that
    fails, in the order consequence, MAF, HGNC, FILTER, and is "passed all"
    exactly when the verdict is True. *)
Theorem check_filters_key (v : snv) :
  ((check_filters v).1 = true ↔ (check_filters v).2 = "passed all")
  ∧ ((check_filters v).2 = "consequence"
     ↔ is_lof v = false ∧ is_missense v = false)
  ∧ ((check_filters v).2 = "MAF"
     ↔ (is_lof v = true ∨ is_missense v = true)
       ∧ ∃ maf, find_max_allele_frequency v = Some maf
                ∧ above_one_percent maf = true)
  ∧ ((check_filters v).2 = "HGNC"
     ↔ (is_lof v = true ∨ is_missense v = true)
       ∧ (∀ maf, find_max_allele_frequency v = Some maf →
            above_one_percent maf = false)
       ∧ known_genes_loaded v = true ∧ get_overlapping_known_genes v = [])
  ∧ ((check_filters v).2 = "FILTER"
     ↔ (is_lof v = true ∨ is_missense v = true)
       ∧ (∀ maf, find_max_allele_frequency v = Some maf →
            above_one_percent maf = false)
       ∧ (known_genes_loaded v = true → get_overlapping_known_genes v ≠ [])
       ∧ ¬ (filter_field v = "PASS" ∨ filter_field v = "."
            ∨ (filter_field v = "LOW_VQSLOD"
               ∧ (info_has v "DENOVO-SNP" = true
                  ∨ info_has v "DENOVO-INDEL" = true)))).
Proof.
  rewrite check_filters_chain.
  rewrite <- consequence_ok, <- frequency_ok, <- frequency_high,
    <- known_gene_ok, <- known_gene_missing, <- filter_field_ok.
  assert (is_lof v = false ∧ is_missense v = false
          ↔ is_lof v || is_missense v = false) as -> by apply iff_sym, orb_false_iff.
  destruct (is_lof v || is_missense v); simpl; [|intuition discriminate].
  destruct (match find_max_allele_frequency v with
            | Some maf => above_one_percent maf
            | None => false
            end); [simpl; intuition discriminate|].
  destruct (known_genes_loaded v
            && bool_decide (length (get_overlapping_known_genes v) = 0%nat));
    [simpl; intuition discriminate|].
  destruct (bool_decide (filter_field v ∈ ["PASS"; "."])
            || (bool_decide (filter_field v = "LOW_VQSLOD")
                && (info_has v "DENOVO-SNP" || info_has v "DENOVO-INDEL")));
    simpl; intuition discriminate.
Qed.

End facts.

Lemma passes_filters_iff_witness :
  @passes_filters SampleMore.filter_base (Sample.male_x_snv "1/1") = true.
Proof.
  apply (@passes_filters_iff SampleMore.filter_base (Sample.male_x_snv "1/1")).
  split; [right; reflexivity|]. split; [intros maf [= <-]; reflexivity|].
  split; [discriminate|]. right. right. split; [reflexivity|left; reflexivity].
Defined.

Lemma check_filters_key_witness :
  (@check_filters SampleMore.common_filter_base (Sample.male_x_snv "1/1")).2 = "MAF".
Proof.
  apply (@check_filters_key SampleMore.common_filter_base (Sample.male_x_snv "1/1")).
  split; [right; reflexivity|]. exists 250. split; reflexivity.
Defined.

End SNVFilterFacts.

(** ** Structural variants, continued *)

Module CNVMore.
Import CNV.

Section facts.
Context `{VB : VariantBase} `{CB : CNVBase}.

(** [set_genotype] as one expression: the context it settles on, then its
    last two statements. *)
Lemma set_genotype_run v :
  set_genotype v
  = let finish t :=
      if bool_decide (t = "YChrFemale")
      then (Raise (ValueError ["cannot have CNV on female Y chromosome"]),
            with_inheritance_type t v)
      else if bool_decide (alt_allele v = "<DUP>")
      then (Ok tt, with_genotype "DUP" (with_inheritance_type t v))
      else if bool_decide (alt_allele v = "<DEL>")
      then (Ok tt, with_genotype "DEL" (with_inheritance_type t v))
      else (Raise (ValueError ["unknown CNV allele code"]),
            with_inheritance_type t v) in
    if bool_decide (chrom v ∈ ["chrX"; "ChrX"; "X"; "chrY"; "ChrY"; "Y"]) then
      match info v !! "END" with
      | None => (Raise (KeyError "END"), v)
      | Some s =>
          match py_int s with
          | None => (Raise (ValueError ["invalid literal for int() with base 10: '"
                                        ++ s ++ "'"]), v)
          | Some z =>
              finish
                (if bool_decide (inheritance_type v
                                 ≠ resolve_inheritance_type (chrom v) z (gender v))
                    && bool_decide (inheritance_type v ≠ "autosomal")
                 then resolve_inheritance_type (chrom v) (position v) (gender v)
                 else resolve_inheritance_type (chrom v) z (gender v))
          end
      end
    else finish (inheritance_type v).
Proof.
  unfold set_genotype, method_bind, get_chrom, get_position,
    get_inheritance_type, set_inheritance_type, getitem, int, gets, modify,
    raise, pass, method_ret.
  case_bool_decide as Hchrom; simpl.
  - destruct (info v !! "END") as [s|]; simpl; [|done].
    destruct (py_int s) as [z|]; simpl; [|done].
    repeat case_bool_decide; simpl in *; repeat case_bool_decide; simpl in *;
      first [reflexivity | congruence].
  - rewrite CNVFacts.with_inheritance_type_id.
    repeat case_bool_decide; simpl in *; first [reflexivity | congruence].
Qed.

Lemma set_genotype_fields v :
  chrom (set_genotype v).2 = chrom v
  ∧ position (set_genotype v).2 = position v
  ∧ gender (set_genotype v).2 = gender v
  ∧ alt_allele (set_genotype v).2 = alt_allele v
  ∧ info (set_genotype v).2 = info v
  ∧ gene (set_genotype v).2 = gene v
  ∧ known_genes (set_genotype v).2 = known_genes v
  ∧ debug_chrom (set_genotype v).2 = debug_chrom v
  ∧ debug_pos (set_genotype v).2 = debug_pos v.
Proof.
  rewrite set_genotype_run. simpl.
  case_bool_decide; [destruct (info v !! "END") as [s|];
                     [destruct (py_int s) as [z|]|]|];
    repeat case_bool_decide; simpl; by split_and!.
Qed.


(** X11. [set_genotype] changes nothing but the inheritance type and the
    genotype. When it raises, the genotype is the one from before the call;
    when it returns, the genotype is the alternate allele without its angle
    brackets. *)
Theorem structural_genotype_frame (v : cnv) :
  chrom (set_genotype v).2 = chrom v
  ∧ gender (set_genotype v).2 = gender v
  ∧ alt_allele (set_genotype v).2 = alt_allele v
  ∧ info (set_genotype v).2 = info v
  ∧ gene (set_genotype v).2 = gene v
  ∧ known_genes (set_genotype v).2 = known_genes v
  ∧ debug_chrom (set_genotype v).2 = debug_chrom v
  ∧ debug_pos (set_genotype v).2 = debug_pos v
  ∧ (∀ e, (set_genotype v).1 = Raise e → genotype (set_genotype v).2 = genotype v)
  ∧ ((set_genotype v).1 = Ok tt →
     alt_allele v = "<" ++ genotype (set_genotype v).2 ++ ">").
Proof.
  destruct (set_genotype_fields v) as (Hc & _ & Hg & Ha & Hi & Hge & Hk & Hdc & Hdp).
  split_and!; try done.
  - rewrite set_genotype_run. simpl.
    case_bool_decide; [destruct (info v !! "END") as [s|];
                       [destruct (py_int s) as [z|]|]|];
      repeat case_bool_decide; simpl; done.
  - rewrite set_genotype_run. simpl.
    case_bool_decide; [destruct (info v !! "END") as [s|];
                       [destruct (py_int s) as [z|]|]|];
      repeat case_bool_decide; simpl; done.
Qed.

(** X12. Once the stored context of a variant on X or Y is the one of its
    start, a second [set_genotype] does what the first did and leaves the
    variant as the first left it. *)
Theorem set_genotype_idempotent (v : cnv) :
  (chrom v ∈ ["chrX"; "ChrX"; "X"; "chrY"; "ChrY"; "Y"] →
   inheritance_type v
   = resolve_inheritance_type (chrom v) (position v) (gender v)) →
  set_genotype (set_genotype v).2 = set_genotype v.
Proof.
  intros Hstored.
  rewrite (set_genotype_run (set_genotype v).2).
  destruct (set_genotype_fields v) as (Hc & Hp & Hg & Ha & Hi & _).
  rewrite Hc, Hg, Ha, Hi, Hp. clear Hc Hg Ha Hi Hp.
  rewrite set_genotype_run. simpl.
  case_bool_decide as Hchrom.
  - specialize (Hstored Hchrom).
    destruct (info v !! "END") as [s|] eqn:Hend; [|done].
    destruct (py_int s) as [z|] eqn:Hint; [|done].
    rewrite <- Hstored.
    repeat case_bool_decide; simpl; repeat case_bool_decide; simpl;
      try congruence; try done.
  - repeat case_bool_decide; simpl; repeat case_bool_decide; simpl;
      try congruence; try done.
Qed.

Lemma has_key_is_Some key (d : gmap string string) :
  has_key key d = true ↔ is_Some (d !! key).
Proof. apply bool_decide_eq_true. Qed.

Lemma has_key_None key (d : gmap string string) :
  has_key key d = false ↔ d !! key = None.
Proof.
  unfold has_key. rewrite bool_decide_eq_false. by rewrite eq_None_not_Some.
Qed.

(** [passes_filters] after its [try]. *)
Lemma passes_filters_run v :
  passes_filters v
  = match set_genotype v with
    | (Raise (ValueError _), self') => (Ok false, self')
    | (Raise e, self') => (Raise e, self')
    | (Ok _, self') =>
        let track_variant :=
          bool_decide (Some (chrom self') = debug_chrom self')
          && bool_decide (Some (position self') = debug_pos self') in
        (Ok (if has_key "CONVEX" (info self')
                && negb (has_key "CNSOLIDATE" (info self')) then false
             else if has_key "CNSOLIDATE" (info self')
             then acgh_filter_cnv self' track_variant
             else if has_key "BREAKDANCER" (info self')
             then breakdancer_filter_cnv self' track_variant
             else false), self')
    end.
Proof.
  unfold passes_filters. destruct (set_genotype v) as [[[]|e] self']; [|done].
  unfold method_bind, get_chrom, get_position, gets, method_ret. simpl.
  destruct (has_key "CONVEX" (info self') && negb (has_key "CNSOLIDATE" (info self')));
    [done|].
  destruct (has_key "CNSOLIDATE" (info self')); [done|].
  by destruct (has_key "BREAKDANCER" (info self')).
Qed.

(** X13. The only exception [passes_filters] lets through is the KeyError
    of a variant on X or Y that has no END annotation, and then the variant
    is untouched; an END that [int] cannot read gives the verdict False. *)
Theorem passes_filters_raises_only_missing_end (v : cnv) :
  (∀ e, (passes_filters v).1 = Raise e →
     e = KeyError "END"
     ∧ chrom v ∈ ["chrX"; "ChrX"; "X"; "chrY"; "ChrY"; "Y"]
     ∧ info v !! "END" = None ∧ (passes_filters v).2 = v)
  ∧ (chrom v ∈ ["chrX"; "ChrX"; "X"; "chrY"; "ChrY"; "Y"] →
     info v !! "END" = None →
     passes_filters v = (Raise (KeyError "END"), v))
  ∧ (∀ s, chrom v ∈ ["chrX"; "ChrX"; "X"; "chrY"; "ChrY"; "Y"] →
       info v !! "END" = Some s → py_int s = None →
       passes_filters v = (Ok false, v)).
Proof.
  rewrite passes_filters_run, set_genotype_run. simpl. split_and!.
  - intros e.
    case_bool_decide as Hchrom;
      [destruct (info v !! "END") as [s|]; [destruct (py_int s) as [z|]|]|];
      repeat case_bool_decide; simpl; intros [= <-]; done.
  - intros Hchrom ->. by rewrite bool_decide_eq_true_2.
  - intros s Hchrom -> ->. by rewrite bool_decide_eq_true_2.
Qed.

(** X14. [passes_filters] leaves the variant as [set_genotype] leaves it.
    It answers True only after [set_genotype] has returned, and only for a
    call tagged CNSOLIDATE, or tagged BREAKDANCER and not CONVEX: an
    exome-only call and a call without a caller tag never pass. *)
Theorem passes_filters_verdict (v : cnv) :
  (passes_filters v).2 = (set_genotype v).2
  ∧ ((passes_filters v).1 = Ok true →
     (set_genotype v).1 = Ok tt
     ∧ (is_Some (info v !! "CNSOLIDATE")
        ∨ (is_Some (info v !! "BREAKDANCER") ∧ info v !! "CONVEX" = None)))
  ∧ (is_Some (info v !! "CONVEX") → info v !! "CNSOLIDATE" = None →
     (passes_filters v).1 ≠ Ok true)
  ∧ (info v !! "CNSOLIDATE" = None → info v !! "BREAKDANCER" = None →
     (passes_filters v).1 ≠ Ok true).
Proof.
  rewrite passes_filters_run.
  destruct (set_genotype_fields v) as (_ & _ & _ & _ & Hinfo & _).
  destruct (set_genotype v) as [[[]|e] self']; simpl in *.
  2:{ destruct e; by split_and!. }
  rewrite Hinfo.
  pose proof (has_key_is_Some "CONVEX" (info v)) as Hconvex.
  pose proof (has_key_None "CONVEX" (info v)) as Hconvex'.
  pose proof (has_key_is_Some "CNSOLIDATE" (info v)) as Hacgh.
  pose proof (has_key_None "CNSOLIDATE" (info v)) as Hacgh'.
  pose proof (has_key_is_Some "BREAKDANCER" (info v)) as Hbd.
  pose proof (has_key_None "BREAKDANCER" (info v)) as Hbd'.
  destruct (has_key "CONVEX" (info v)), (has_key "CNSOLIDATE" (info v)),
    (has_key "BREAKDANCER" (info v)); simpl; split_and!; try done;
    try (intros _; split; [done|]; intuition done);
    try (intros H1 H2; first [apply Hacgh' in H2 | apply Hconvex in H1
                             | apply Hbd' in H2 | apply Hacgh' in H1];
         first [discriminate | done]);
    intuition (try discriminate; try done).
Qed.

End facts.

Lemma structural_genotype_frame_witness :
  alt_allele Sample.x_dup
  = "<" ++ genotype (@set_genotype Sample.base Sample.x_dup).2 ++ ">".
Proof.
  apply (@structural_genotype_frame Sample.base Sample.x_dup). reflexivity.
Defined.

Lemma set_genotype_idempotent_witness :
  @set_genotype Sample.base (@set_genotype Sample.base Sample.par_crossing_dup).2
  = @set_genotype Sample.base Sample.par_crossing_dup.
Proof.
  apply (@set_genotype_idempotent Sample.base). intros _. reflexivity.
Defined.

Lemma passes_filters_raises_only_missing_end_witness :
  @passes_filters Sample.base Sample.cnv_base SampleMore.x_dup_without_end
  = (Raise (KeyError "END"), SampleMore.x_dup_without_end).
Proof.
  apply (@passes_filters_raises_only_missing_end Sample.base Sample.cnv_base
           SampleMore.x_dup_without_end).
  - apply (proj1 (bool_decide_eq_true _)). reflexivity.
  - reflexivity.
Defined.

Lemma passes_filters_verdict_witness :
  (@passes_filters Sample.base Sample.cnv_base SampleMore.exome_only_dup).1
  ≠ Ok true.
Proof.
  destruct (@passes_filters_verdict Sample.base Sample.cnv_base
              SampleMore.exome_only_dup) as (_ & _ & Hexome & _).
  apply Hexome.
  - exists "1". reflexivity.
  - reflexivity.
Defined.

End CNVMore.

(** ** The gene annotation of a structural variant *)

Module CNVGenesFacts.
Import CNV CNVAnnotation.

Section facts.
Context `{VB : VariantBase} `{CB : CNVBase}.

(** The names that [get_genes] reads off the gene string. *)
Lemma get_genes_run v :
  get_genes v
  = (Ok match gene v with
        | None => []
        | Some names => if has_char "," names then split "," names else [names]
        end, v).
Proof.
  unfold get_genes, method_bind, gets, method_ret.
  destruct (gene v) as [names|]; [|done]. by destruct (has_char "," names).
Qed.

Lemma with_gene_same v names : gene v = Some names → with_gene (Some names) v = v.
Proof. destruct v. simpl. by intros ->. Qed.

Lemma get_genes_round_trip_aux (v : cnv) :
  ∃ genes,
    get_genes v = (Ok genes, v)
    ∧ (genes = [] ↔ gene v = None)
    ∧ (∀ g, g ∈ genes → has_char "," g = false)
    ∧ (∀ names, gene v = Some names → join "," genes = names).
Proof.
  rewrite get_genes_run. eexists. split; [reflexivity|].
  destruct (gene v) as [names|].
  2:{ split_and!; [done | by intros g ?%elem_of_nil | done]. }
  destruct (has_char "," names) eqn:Hcomma.
  - split_and!.
    + split; [|done]. intros Hnil. by destruct (split_nonempty "," names).
    + intros g. apply split_parts_clean.
    + intros ? [= <-]. apply (join_split ","%char).
  - split_and!.
    + done.
    + by intros g ->%list_elem_of_singleton.
    + by intros ? [= <-].
Qed.

(** X15. [get_genes] gives no name exactly when the variant has no gene
    string. Otherwise it gives at least one name, none of them holds a comma,
    and joining them with commas gives the gene string back. *)
Theorem get_genes_round_trip (v : cnv) :
  ∃ genes,
    get_genes v = (Ok genes, v)
    ∧ (genes = [] ↔ gene v = None)
    ∧ (∀ g, g ∈ genes → has_char "," g = false)
    ∧ (∀ names, gene v = Some names → join "," genes = names).
Proof.
  rewrite get_genes_run. eexists. split; [reflexivity|].
  destruct (gene v) as [names|] eqn:Hgene.
  - destruct (has_char "," names) eqn:Hcomma; split_and!.
    + split; [|done]. intros Hnil. by destruct (split_nonempty "," names).
    + intros g. apply split_parts_clean.
    + intros ? [= <-]. apply (join_split ","%char).
    + done.
    + by intros g ->%list_elem_of_singleton.
    + by intros ? [= <-].
  - split_and!; [done | by intros g ?%elem_of_nil | done].
Qed.


(** When every reported gene is kept, the loop returns them all. *)
Lemma fix_gene_IDs_loop_all known start end_ reported acc :
  (∀ g, g ∈ reported →
     known = None
     ∨ ∃ panel, known = Some panel
         ∧ (panel !! g = None
            ∨ ∃ entry gs ge, panel !! g = Some entry
                ∧ gene_start entry = Some gs ∧ gene_end entry = Some ge
                ∧ (start ≤ ge)%Z ∧ (end_ >= gs)%Z)) →
  fix_gene_IDs_loop known start end_ reported acc = Ok (acc ++ reported)%list.
Proof.
  revert acc. induction reported as [|gene rest IH]; intros acc Hall; simpl.
  - by rewrite app_nil_r.
  - assert (fix_gene_IDs_loop known start end_ rest (acc ++ [gene])
            = Ok (acc ++ gene :: rest)%list) as Hnext.
    { rewrite IH; [by rewrite <- app_assoc|]. intros g Hg. apply Hall. by right. }
    destruct (Hall gene) as [-> | (panel & -> & Hkeep)]; [by left|done|].
    destruct Hkeep as [-> | (entry & gs & ge & -> & -> & -> & H1 & H2)]; [done|].
    replace ((start <=? ge)%Z && (end_ >=? gs)%Z) with true; [done|].
    symmetry. apply andb_true_iff. split; [by apply Z.leb_le|by apply Z.geb_le; lia].
Qed.

(** A panel entry without coordinates stops the loop. *)
Lemma fix_gene_IDs_loop_incomplete panel start end_ reported acc g entry :
  g ∈ reported → panel !! g = Some entry →
  gene_start entry = None ∨ gene_end entry = None →
  ∃ key, fix_gene_IDs_loop (Some panel) start end_ reported acc
         = Raise (KeyError key)
         ∧ (key = "start" ∨ key = "end").
Proof.
  intros Hin Hentry Hbare. revert acc.
  induction reported as [|gene rest IH]; intros acc; [by apply elem_of_nil in Hin|].
  simpl.
  destruct (decide (gene = g)) as [-> | Hne].
  - rewrite Hentry.
    destruct (gene_start entry) as [gs|]; [|by eexists; split; [|left]].
    destruct (gene_end entry) as [ge|]; [|by eexists; split; [|right]].
    by destruct Hbare.
  - apply elem_of_cons in Hin as [-> | Hin]; [done|].
    destruct (panel !! gene) as [other|]; [|by apply IH].
    destruct (gene_start other) as [gs|]; [|by eexists; split; [|left]].
    destruct (gene_end other) as [ge|]; [|by eexists; split; [|right]].
    destruct ((start <=? ge)%Z && (end_ >=? gs)%Z); by apply IH.
Qed.

(** [fix_gene_IDs] around its loop. *)
Lemma fix_gene_IDs_run v reported :
  (get_genes v).1 = Ok reported →
  fix_gene_IDs v
  = match fix_gene_IDs_loop (known_genes v) (get_range v).1 (get_range v).2
            reported [] with
    | Ok genes =>
        (Ok tt, if bool_decide (0 < length genes)%nat
                then with_gene (Some (join "," genes)) v else v)
    | Raise e => (Raise e, v)
    end.
Proof.
  intros Hget. destruct (CNVFacts.get_genes_runs v) as (reported' & Hrun).
  rewrite Hrun in Hget. injection Hget as ->.
  unfold fix_gene_IDs, method_bind, gets at 1. simpl.
  rewrite Hrun. unfold gets, lift.
  destruct (fix_gene_IDs_loop _ _ _ _ _) as [genes|e]; [|done].
  by case_bool_decide.
Qed.


Lemma fix_gene_IDs_all_kept (v : cnv) (reported : list string) :
  (get_genes v).1 = Ok reported →
  (∀ g, g ∈ reported →
     known_genes v = None
     ∨ ∃ panel, known_genes v = Some panel
         ∧ (panel !! g = None
            ∨ ∃ entry gs ge, panel !! g = Some entry
                ∧ gene_start entry = Some gs ∧ gene_end entry = Some ge
                ∧ ((get_range v).1 ≤ ge)%Z ∧ ((get_range v).2 >= gs)%Z)) →
  fix_gene_IDs v = (Ok tt, v).
Proof.
  intros Hget Hall.
  rewrite (fix_gene_IDs_run v reported Hget).
  rewrite fix_gene_IDs_loop_all by done. simpl.
  case_bool_decide as Hlen; [|done].
  destruct (get_genes_round_trip_aux v) as (genes & Hrun & Hnil & _ & Hjoin).
  rewrite Hrun in Hget. injection Hget as ->.
  destruct (gene v) as [names|] eqn:Hgene.
  - rewrite (Hjoin names eq_refl). by rewrite with_gene_same.
  - rewrite (proj2 Hnil eq_refl) in Hlen. simpl in Hlen. lia.
Qed.

(** X17. When the variant has no panel, or every reported gene is unknown
    to the panel or overlaps the variant, [fix_gene_IDs] leaves the variant
    exactly as it was. *)
Theorem fix_gene_IDs_unchanged_when_all_kept (v : cnv) (reported : list string) :
  (get_genes v).1 = Ok reported →
  (∀ g, g ∈ reported →
     known_genes v = None
     ∨ ∃ panel, known_genes v = Some panel
         ∧ (panel !! g = None
            ∨ ∃ entry gs ge, panel !! g = Some entry
                ∧ gene_start entry = Some gs ∧ gene_end entry = Some ge
                ∧ ((get_range v).1 ≤ ge)%Z ∧ ((get_range v).2 >= gs)%Z)) →
  fix_gene_IDs v = (Ok tt, v).
Proof.
  intros Hget Hall.
  rewrite (fix_gene_IDs_run v reported Hget).
  rewrite fix_gene_IDs_loop_all by done. simpl.
  case_bool_decide as Hlen; [|done].
  f_equal. apply with_gene_same.
  rewrite get_genes_run in Hget. simpl in Hget. injection Hget as <-.
  destruct (gene v) as [names|]; [|simpl in Hlen; lia].
  f_equal. destruct (has_char "," names); [|done].
  symmetry. apply (join_split ","%char).
Qed.

Lemma fix_gene_IDs_loop_raises known start end_ reported acc e :
  fix_gene_IDs_loop known start end_ reported acc = Raise e →
  e = KeyError "start" ∨ e = KeyError "end".
Proof.
  revert acc. induction reported as [|gene rest IH]; intros acc; simpl; [done|].
  destruct known as [panel|]; [|by apply IH].
  destruct (panel !! gene) as [entry|]; [|by apply IH].
  destruct (gene_start entry) as [gs|]; [|intros [= <-]; by left].
  destruct (gene_end entry) as [ge|]; [|intros [= <-]; by right].
  destruct ((start <=? ge)%Z && (end_ >=? gs)%Z); by apply IH.
Qed.

(** X18. A reported gene whose panel entry lacks its start or its end makes
    [fix_gene_IDs] raise KeyError. Whenever [fix_gene_IDs] raises, it is the
    KeyError of "start" or of "end", and the variant is untouched. *)
Theorem fix_gene_IDs_incomplete_entry (v : cnv) :
  (∀ panel reported g entry,
     known_genes v = Some panel → (get_genes v).1 = Ok reported →
     g ∈ reported → panel !! g = Some entry →
     gene_start entry = None ∨ gene_end entry = None →
     ∃ key, fix_gene_IDs v = (Raise (KeyError key), v)
            ∧ (key = "start" ∨ key = "end"))
  ∧ (∀ e, (fix_gene_IDs v).1 = Raise e →
       (e = KeyError "start" ∨ e = KeyError "end") ∧ (fix_gene_IDs v).2 = v).
Proof.
  split.
  - intros panel reported g entry Hknown Hget Hin Hentry Hbare.
    rewrite (fix_gene_IDs_run v reported Hget), Hknown.
    destruct (fix_gene_IDs_loop_incomplete panel (get_range v).1 (get_range v).2
                reported [] g entry Hin Hentry Hbare) as (key & -> & Hkey).
    by exists key.
  - intros e. destruct (CNVFacts.get_genes_runs v) as (reported & Hrun).
    rewrite (fix_gene_IDs_run v reported) by (by rewrite Hrun).
    destruct (fix_gene_IDs_loop _ _ _ _ _) as [genes|e'] eqn:Hloop; [done|].
    simpl. intros [= <-]. split; [|done].
    by eapply fix_gene_IDs_loop_raises.
Qed.

(** X19. For a range that does not depend on the gene annotation, running
    [fix_gene_IDs] again on its own result changes nothing. *)
Theorem fix_gene_IDs_idempotent (v : cnv) :
  (∀ g u, get_range (with_gene g u) = get_range u) →
  (fix_gene_IDs v).1 = Ok tt →
  fix_gene_IDs (fix_gene_IDs v).2 = (Ok tt, (fix_gene_IDs v).2).
Proof.
  intros Hrange.
  destruct (get_genes_round_trip_aux v) as (reported & Hrun & _ & Hclean & _).
  assert ((get_genes v).1 = Ok reported) as Hget by (by rewrite Hrun).
  rewrite (fix_gene_IDs_run v reported Hget).
  destruct (fix_gene_IDs_loop _ _ _ _ _) as [genes|e] eqn:Hloop; [|done].
  intros _. simpl.
  destruct (CNVFacts.fix_gene_IDs_loop_kept _ _ _ _ _ _ Hloop)
    as (kept & Hk & Hkept).
  simpl in Hk. subst kept.
  case_bool_decide as Hlen.
  - assert (genes ≠ []) as Hne by (intros ->; simpl in Hlen; lia).
    assert (∀ g, g ∈ genes → has_char "," g = false) as Hgenes.
    { intros g Hg. apply Hclean. by apply Hkept. }
    apply (fix_gene_IDs_all_kept _ genes).
    + rewrite get_genes_run. simpl. f_equal.
      pose proof (split_join ","%char genes Hne Hgenes) as Hsplit.
      destruct (has_char "," (join "," genes)) eqn:Hcomma; [done|].
      by rewrite <- Hsplit, (split_absent _ _ Hcomma).
    + intros g Hg. rewrite Hrange. simpl. by apply Hkept.
  - rewrite (fix_gene_IDs_run v reported Hget), Hloop. simpl.
    by rewrite bool_decide_eq_false_2.
Qed.


End facts.

Lemma get_genes_round_trip_witness :
  ∃ genes,
    get_genes SampleMore.two_gene_dup = (Ok genes, SampleMore.two_gene_dup)
    ∧ join "," genes = "TEST,OTHER".
Proof.
  destruct (get_genes_round_trip SampleMore.two_gene_dup)
    as (genes & Hrun & _ & _ & Hjoin).
  exists genes. split; [exact Hrun|]. apply Hjoin. reflexivity.
Defined.


Lemma fix_gene_IDs_unchanged_when_all_kept_witness :
  @fix_gene_IDs Sample.cnv_base SampleMore.two_gene_dup
  = (Ok tt, SampleMore.two_gene_dup).
Proof.
  apply (@fix_gene_IDs_unchanged_when_all_kept Sample.cnv_base
           SampleMore.two_gene_dup ["TEST"; "OTHER"]).
  - reflexivity.
  - intros g _. left. reflexivity.
Defined.

Lemma fix_gene_IDs_incomplete_entry_witness :
  ∃ key, @fix_gene_IDs Sample.cnv_base SampleMore.dup_with_bare_panel
         = (Raise (KeyError key), SampleMore.dup_with_bare_panel).
Proof.
  destruct (proj1 (@fix_gene_IDs_incomplete_entry Sample.cnv_base
                     SampleMore.dup_with_bare_panel)
              SampleMore.bare_panel ["TEST"] "TEST" (mk_gene_entry None None))
    as (key & Hrun & _).
  - reflexivity.
  - reflexivity.
  - apply list_elem_of_singleton. reflexivity.
  - reflexivity.
  - left. reflexivity.
  - exists key. exact Hrun.
Defined.

Lemma fix_gene_IDs_idempotent_witness :
  @fix_gene_IDs Sample.cnv_base
    (@fix_gene_IDs Sample.cnv_base SampleMore.two_gene_dup_with_panel).2
  = (Ok tt, (@fix_gene_IDs Sample.cnv_base SampleMore.two_gene_dup_with_panel).2).
Proof.
  apply (@fix_gene_IDs_idempotent Sample.cnv_base).
  - intros g u. reflexivity.
  - reflexivity.
Defined.


End CNVGenesFacts.
